(** * Bridge MQTT / OPC-UA: the persistent buffer and its analytics

    A shallow embedding of [persistent_buffer.py] (class [PersistentBuffer]),
    of the analytic queries of [buffer_analytics.py], of the egress worker
    of [mqtt_opcua_bridge.py], of [reset_stuck_messages] of
    [buffer_monitor.py] and of the HTTP connector of
    [sap_bridge/sap_connector.py], followed by the properties of the
    specification that concern them.

    Conventions of the embedding.
    - The SQLite tables are lists of rows in rowid order.
    - Time is a number of seconds ([Z]); every operation that reads
      [CURRENT_TIMESTAMP], [datetime('now')] or [datetime.now()] takes the
      current instant [now] as an argument.  One clock serves Python and
      SQLite (the host runs on UTC).
    - Python's [json] module is modelled on the values without floating
      point arithmetic: a float is kept as its literal.
    - Exceptions caught by the [try]/[except] of a method become the
      failure value that the handler returns.  The decoder [Json.loads]
      models [json.JSONDecodeError] only; the texts on which [json.loads]
      raises something else are those that [decodes_quietly] excludes. *)

From Stdlib Require Import ZArith QArith Ascii String.
From stdpp Require Import base decidable option list sorting strings gmap.

Set Warnings "-register-all".

Local Open Scope string_scope.
Local Open Scope list_scope.
Local Open Scope Z_scope.

(** ** Python values and the [json] module *)

(** The values that travel in [BufferedMessage.value] and [.metadata].
    A dictionary keeps its insertion order, as in Python. *)
Inductive pyvalue : Type :=
  | PNone
  | PBool (b : bool)
  | PInt (z : Z)
  | PFloat (literal : string)
  | PStr (s : string)
  | PList (l : list pyvalue)
  | PDict (d : list (string * pyvalue)).

(** The digits at the head of [s], read as a number after those read so
    far, with their count and what follows them. *)
Fixpoint read_digits (s : list ascii) (acc count : Z) : Z * Z * list ascii :=
  match s with
  | c :: rest =>
      let n := Z.of_nat (nat_of_ascii c) in
      if (48 <=? n) && (n <=? 57) then read_digits rest (10 * acc + (n - 48)) (count + 1)
      else (acc, count, s)
  | [] => (acc, count, [])
  end.

(** [float(literal) == 0.0] for the literal of a number
    [-? digits (. digits)? ([eE] [+-]? digits)?]: the digits of the
    mantissa are all zero, or the number is at most [2^-1075], half of the
    least positive float, where the conversion rounds to zero. *)
Definition float_is_zero (literal : string) : bool :=
  let s := list_ascii_of_string literal in
  let s := match s with
           | c :: rest => if Ascii.eqb c "-" then rest else s
           | [] => s
           end in
  let '(int_part, int_digits, s1) := read_digits s 0 0 in
  let '(mantissa, frac_digits, s2) :=
    match s1 with
    | c :: rest => if Ascii.eqb c "." then read_digits rest int_part 0
                   else (int_part, 0, s1)
    | [] => (int_part, 0, s1)
    end in
  let '(exponent, exp_digits, s3) :=
    match s2 with
    | c :: rest =>
        if Ascii.eqb c "e" || Ascii.eqb c "E" then
          match rest with
          | g :: rest' =>
              if Ascii.eqb g "-" then
                let '(x, n, tl) := read_digits rest' 0 0 in (- x, n, tl)
              else if Ascii.eqb g "+" then read_digits rest' 0 0
              else read_digits rest 0 0
          | [] => (0, 0, rest)
          end
        else (0, 1, s2)
    | [] => (0, 1, s2)
    end in
  let scale := exponent - frac_digits in
  (0 <? int_digits) && (0 <? exp_digits)
  && match s3 with [] => true | _ :: _ => false end
  && ((mantissa =? 0)
      || ((scale <? 0) && (mantissa * 2 ^ 1075 <=? 10 ^ (- scale)))).

(** Python truthiness ([if message.metadata], [if row['value']]). *)
Definition py_truthy (v : pyvalue) : bool :=
  match v with
  | PNone => false
  | PBool b => b
  | PInt z => negb (z =? 0)
  | PFloat literal => negb (float_is_zero literal)
  | PStr s => negb (String.eqb s "")
  | PList l => match l with [] => false | _ => true end
  | PDict d => match d with [] => false | _ => true end
  end.

Module Json.

(** The double quote character. *)
Definition dquote : ascii := ascii_of_nat 34.

Definition digit_char (d : Z) : ascii := ascii_of_nat (Z.to_nat (48 + d)).

Fixpoint digits_of (fuel : nat) (n : Z) (acc : list ascii) : list ascii :=
  match fuel with
  | O => acc
  | S f =>
      if n <? 10 then digit_char n :: acc
      else digits_of f (n / 10) (digit_char (n mod 10) :: acc)
  end.

(** [str(int)] *)
Definition int_text (z : Z) : list ascii :=
  let a := Z.abs z in
  let ds := digits_of (S (Z.to_nat (Z.log2 a))) a [] in
  if z <? 0 then "-"%char :: ds else ds.

Definition hex_char (d : Z) : ascii :=
  if d <? 10 then digit_char d else ascii_of_nat (Z.to_nat (87 + d)).

(** One character of a string literal, [ensure_ascii=True]. *)
Definition escape_char (c : ascii) : list ascii :=
  let n := Z.of_nat (nat_of_ascii c) in
  if Ascii.eqb c dquote then ["\"%char; dquote]
  else if Ascii.eqb c "\"%char then ["\"%char; "\"%char]
  else if n =? 10 then ["\"%char; "n"%char]
  else if n =? 13 then ["\"%char; "r"%char]
  else if n =? 9 then ["\"%char; "t"%char]
  else if n =? 8 then ["\"%char; "b"%char]
  else if n =? 12 then ["\"%char; "f"%char]
  else if (n <? 32) || (126 <? n) then
    ["\"%char; "u"%char; "0"%char; "0"%char; hex_char (n / 16); hex_char (n mod 16)]
  else [c].

Definition string_text (s : string) : list ascii :=
  dquote :: concat (escape_char <$> list_ascii_of_string s) ++ [dquote].

Fixpoint join (sep : list ascii) (parts : list (list ascii)) : list ascii :=
  match parts with
  | [] => []
  | [p] => p
  | p :: ps => p ++ sep ++ join sep ps
  end.

(** [json.dumps] with the default separators. *)
Fixpoint dumps_text (v : pyvalue) : list ascii :=
  match v with
  | PNone => list_ascii_of_string "null"
  | PBool true => list_ascii_of_string "true"
  | PBool false => list_ascii_of_string "false"
  | PInt z => int_text z
  | PFloat lit => list_ascii_of_string lit
  | PStr s => string_text s
  | PList l =>
      "["%char :: join (list_ascii_of_string ", ") (map dumps_text l) ++ ["]"%char]
  | PDict d =>
      let member := fix member (kvs : list (string * pyvalue)) : list (list ascii) :=
        match kvs with
        | [] => []
        | (k, x) :: rest =>
            (string_text k ++ list_ascii_of_string ": " ++ dumps_text x) :: member rest
        end in
      "{"%char :: join (list_ascii_of_string ", ") (member d) ++ ["}"%char]
  end.

Definition dumps (v : pyvalue) : string := string_of_list_ascii (dumps_text v).

(** *** Decoder *)

Definition is_ws (c : ascii) : bool :=
  let n := nat_of_ascii c in
  (n =? 32)%nat || (n =? 9)%nat || (n =? 10)%nat || (n =? 13)%nat.

Fixpoint skip_ws (s : list ascii) : list ascii :=
  match s with
  | c :: rest => if is_ws c then skip_ws rest else s
  | [] => []
  end.

Definition digit_val (c : ascii) : option Z :=
  let n := Z.of_nat (nat_of_ascii c) in
  if (48 <=? n) && (n <=? 57) then Some (n - 48) else None.

Definition hex_val (c : ascii) : option Z :=
  let n := Z.of_nat (nat_of_ascii c) in
  if (48 <=? n) && (n <=? 57) then Some (n - 48)
  else if (97 <=? n) && (n <=? 102) then Some (n - 87)
  else if (65 <=? n) && (n <=? 70) then Some (n - 55)
  else None.

(** The longest prefix of decimal digits and what follows it. *)
Fixpoint span_digits (s : list ascii) : list ascii * list ascii :=
  match s with
  | c :: rest =>
      match digit_val c with
      | Some _ => let '(ds, tl) := span_digits rest in (c :: ds, tl)
      | None => ([], s)
      end
  | [] => ([], [])
  end.

Definition digits_value (ds : list ascii) : Z :=
  fold_left (fun acc c => 10 * acc + default 0 (digit_val c)) ds 0.

Fixpoint strip_prefix (p s : list ascii) : option (list ascii) :=
  match p, s with
  | [], _ => Some s
  | a :: p', b :: s' => if Ascii.eqb a b then strip_prefix p' s' else None
  | _ :: _, [] => None
  end.

(** The body of a string literal after its opening quote.  Code points
    above U+00FF do not fit the byte strings of the model. *)
Fixpoint scan_string (s : list ascii) (acc : list ascii)
  : option (string * list ascii) :=
  match s with
  | [] => None
  | c :: rest =>
      if Ascii.eqb c dquote then Some (string_of_list_ascii (rev acc), rest)
      else if Ascii.eqb c "\"%char then
        match rest with
        | e :: rest' =>
            if Ascii.eqb e "u"%char then
              match rest' with
              | h1 :: h2 :: h3 :: h4 :: rest'' =>
                  match hex_val h1, hex_val h2, hex_val h3, hex_val h4 with
                  | Some 0, Some 0, Some a, Some b =>
                      scan_string rest'' (ascii_of_nat (Z.to_nat (16 * a + b)) :: acc)
                  | _, _, _, _ => None
                  end
              | _ => None
              end
            else
              let plain (x : ascii) := scan_string rest' (x :: acc) in
              if Ascii.eqb e dquote then plain e
              else if Ascii.eqb e "\"%char then plain e
              else if Ascii.eqb e "/"%char then plain e
              else if Ascii.eqb e "n"%char then plain (ascii_of_nat 10)
              else if Ascii.eqb e "r"%char then plain (ascii_of_nat 13)
              else if Ascii.eqb e "t"%char then plain (ascii_of_nat 9)
              else if Ascii.eqb e "b"%char then plain (ascii_of_nat 8)
              else if Ascii.eqb e "f"%char then plain (ascii_of_nat 12)
              else None
        | [] => None
        end
      else if (nat_of_ascii c <? 32)%nat then None
      else scan_string rest (c :: acc)
  end.

(** A number: an optional minus sign, then a zero or a digit string
    without leading zero, then an optional fraction and exponent; with
    either of the two the literal is a float. *)
Definition scan_number (s : list ascii) : option (pyvalue * list ascii) :=
  let '(neg, s1) :=
    match s with
    | c :: rest => if Ascii.eqb c "-"%char then (true, rest) else (false, s)
    | [] => (false, s)
    end in
  let '(ip, s2) := span_digits s1 in
  match ip with
  | [] => None
  | d :: more =>
      if Ascii.eqb d "0"%char && negb (bool_decide (more = [])) then
        (* a leading zero ends the integer part *)
        Some (PInt 0, more ++ s2)
      else
        let sign := if neg then ["-"%char] else [] in
        let '(frac, s3) :=
          match s2 with
          | c :: rest =>
              if Ascii.eqb c "."%char then
                let '(fd, tl) := span_digits rest in
                match fd with [] => ([], s2) | _ => (c :: fd, tl) end
              else ([], s2)
          | [] => ([], s2)
          end in
        let '(ex, s4) :=
          match s3 with
          | c :: rest =>
              if Ascii.eqb c "e"%char || Ascii.eqb c "E"%char then
                let '(sg, rest') :=
                  match rest with
                  | g :: r' =>
                      if Ascii.eqb g "+"%char || Ascii.eqb g "-"%char
                      then ([g], r') else ([], rest)
                  | [] => ([], rest)
                  end in
                let '(ed, tl) := span_digits rest' in
                match ed with [] => ([], s3) | _ => (c :: sg ++ ed, tl) end
              else ([], s3)
          | [] => ([], s3)
          end in
        match frac, ex with
        | [], [] =>
            Some (PInt (if neg then - digits_value ip else digits_value ip), s4)
        | _, _ =>
            Some (PFloat (string_of_list_ascii (sign ++ ip ++ frac ++ ex)), s4)
        end
  end.

Definition literal (word : string) (v : pyvalue) (s : list ascii)
  : option (pyvalue * list ascii) :=
  rest ← strip_prefix (list_ascii_of_string word) s; Some (v, rest).

(** [JSONDecoder.raw_decode]: one value at the head of [s]. *)
Fixpoint parse_value (fuel : nat) (s : list ascii) : option (pyvalue * list ascii) :=
  match fuel with
  | O => None
  | S f =>
      match s with
      | [] => None
      | c :: rest =>
          if Ascii.eqb c dquote then
            '(str, tl) ← scan_string rest []; Some (PStr str, tl)
          else if Ascii.eqb c "["%char then
            match skip_ws rest with
            | c' :: tl =>
                if Ascii.eqb c' "]"%char then Some (PList [], tl)
                else '(xs, tl') ← parse_elems f (c' :: tl); Some (PList xs, tl')
            | [] => None
            end
          else if Ascii.eqb c "{"%char then
            match skip_ws rest with
            | c' :: tl =>
                if Ascii.eqb c' "}"%char then Some (PDict [], tl)
                else '(kvs, tl') ← parse_members f (c' :: tl); Some (PDict kvs, tl')
            | [] => None
            end
          else if Ascii.eqb c "n"%char then literal "null" PNone s
          else if Ascii.eqb c "t"%char then literal "true" (PBool true) s
          else if Ascii.eqb c "f"%char then literal "false" (PBool false) s
          else if Ascii.eqb c "N"%char then literal "NaN" (PFloat "NaN") s
          else if Ascii.eqb c "I"%char then literal "Infinity" (PFloat "Infinity") s
          else
            match literal "-Infinity" (PFloat "-Infinity") s with
            | Some r => Some r
            | None => scan_number s
            end
      end
  end
with parse_elems (fuel : nat) (s : list ascii) : option (list pyvalue * list ascii) :=
  match fuel with
  | O => None
  | S f =>
      '(x, tl) ← parse_value f s;
      match skip_ws tl with
      | c :: tl' =>
          if Ascii.eqb c ","%char then
            '(xs, tl'') ← parse_elems f (skip_ws tl'); Some (x :: xs, tl'')
          else if Ascii.eqb c "]"%char then Some ([x], tl')
          else None
      | [] => None
      end
  end
with parse_members (fuel : nat) (s : list ascii)
  : option (list (string * pyvalue) * list ascii) :=
  match fuel with
  | O => None
  | S f =>
      match s with
      | q :: body =>
          if Ascii.eqb q dquote then
            '(k, tl) ← scan_string body [];
            match skip_ws tl with
            | c :: tl1 =>
                if Ascii.eqb c ":"%char then
                  '(x, tl2) ← parse_value f (skip_ws tl1);
                  match skip_ws tl2 with
                  | c' :: tl3 =>
                      if Ascii.eqb c' ","%char then
                        '(kvs, tl4) ← parse_members f (skip_ws tl3);
                        Some ((k, x) :: kvs, tl4)
                      else if Ascii.eqb c' "}"%char then Some ([(k, x)], tl3)
                      else None
                  | [] => None
                  end
                else None
            | [] => None
            end
          else None
      | [] => None
      end
  end.

(** [json.loads]: [None] stands for [json.JSONDecodeError].  Every call
    of the decoder consumes a character, so twice the length of the text
    is fuel enough. *)
Definition loads (text : string) : option pyvalue :=
  let s := list_ascii_of_string text in
  '(v, tl) ← parse_value (2 * List.length s + 2) (skip_ws s);
  match skip_ws tl with
  | [] => Some v
  | _ :: _ => None
  end.

End Json.

(** ** The data model of [persistent_buffer.py] *)

Inductive MessageStatus : Set :=
  | PENDING
  | PROCESSING
  | COMPLETED
  | FAILED
  | EXPIRED.

#[global] Instance MessageStatus_eq_dec : EqDecision MessageStatus.
Proof. solve_decision. Defined.

Definition status_eqb (a b : MessageStatus) : bool := bool_decide (a = b).

(** [MessagePriority]: LOW=0, NORMAL=1, HIGH=2, CRITICAL=3. *)
Inductive MessagePriority : Set := LOW | NORMAL | HIGH | CRITICAL.

Definition priority_value (p : MessagePriority) : Z :=
  match p with LOW => 0 | NORMAL => 1 | HIGH => 2 | CRITICAL => 3 end.

(** The dataclass [BufferedMessage].  [None] of Python is [None] for the
    optional fields and [PNone] for [value] and [metadata]. *)
Record BufferedMessage : Type := mkMessage {
  m_id : option Z;
  m_source : option string;
  m_destination : option string;
  m_topic_or_node : option string;
  m_value : pyvalue;
  m_data_type : option string;
  m_mapping_id : option string;
  m_status : MessageStatus;
  m_priority : Z;
  m_retry_count : Z;
  m_max_retries : Z;
  m_created_at : option Z;
  m_processed_at : option Z;
  m_expire_at : option Z;
  m_error_message : option string;
  m_metadata : pyvalue
}.

(** A row of the table [messages].  [add_message] is its only writer and
    always supplies [created_at] and [expire_at]. *)
Record Row : Type := mkRow {
  r_id : Z;
  r_source : string;
  r_destination : string;
  r_topic_or_node : string;
  r_value : string;
  r_data_type : string;
  r_mapping_id : option string;
  r_status : MessageStatus;
  r_priority : Z;
  r_retry_count : Z;
  r_max_retries : Z;
  r_created_at : Z;
  r_processed_at : option Z;
  r_expire_at : Z;
  r_error_message : option string;
  r_metadata : option string
}.

(** A row of the table [failed_messages] (the dead letters). *)
Record FailedRow : Type := mkFailed {
  f_id : Z;
  f_original_id : Z;
  f_source : string;
  f_destination : string;
  f_topic_or_node : string;
  f_value : string;
  f_error_message : option string;
  f_failed_at : Z;
  f_retry_count : Z;
  f_metadata : option string
}.

(** The dictionary [self.stats]. *)
Record RuntimeStats : Set := mkStats {
  messages_added : Z;
  messages_processed : Z;
  messages_failed : Z;
  messages_expired : Z
}.

(** The object [PersistentBuffer] with its database.  [messages_seq] and
    [failed_seq] are the AUTOINCREMENT counters of the two tables;
    [statistics] holds the timestamps of the rows of that table;
    [delete_limit] tells whether the SQLite library accepts
    [DELETE ... LIMIT] (a compile-time option of SQLite). *)
Record PersistentBuffer : Type := mkBuffer {
  max_size : Z;
  ttl_minutes : Z;
  delete_limit : bool;
  messages : list Row;
  messages_seq : Z;
  failed_messages : list FailedRow;
  failed_seq : Z;
  statistics : list Z;
  stats : RuntimeStats
}.

Definition set_status (s : MessageStatus) (r : Row) : Row :=
  mkRow (r_id r) (r_source r) (r_destination r) (r_topic_or_node r) (r_value r)
        (r_data_type r) (r_mapping_id r) s (r_priority r) (r_retry_count r)
        (r_max_retries r) (r_created_at r) (r_processed_at r) (r_expire_at r)
        (r_error_message r) (r_metadata r).

Definition set_completed (now : Z) (r : Row) : Row :=
  mkRow (r_id r) (r_source r) (r_destination r) (r_topic_or_node r) (r_value r)
        (r_data_type r) (r_mapping_id r) COMPLETED (r_priority r) (r_retry_count r)
        (r_max_retries r) (r_created_at r) (Some now) (r_expire_at r)
        (r_error_message r) (r_metadata r).

Definition set_failure (s : MessageStatus) (retries : Z) (err : option string)
    (r : Row) : Row :=
  mkRow (r_id r) (r_source r) (r_destination r) (r_topic_or_node r) (r_value r)
        (r_data_type r) (r_mapping_id r) s (r_priority r) retries
        (r_max_retries r) (r_created_at r) (r_processed_at r) (r_expire_at r)
        err (r_metadata r).

Definition with_messages (rows : list Row) (b : PersistentBuffer) : PersistentBuffer :=
  mkBuffer (max_size b) (ttl_minutes b) (delete_limit b) rows (messages_seq b)
           (failed_messages b) (failed_seq b) (statistics b) (stats b).

Definition with_stats (s : RuntimeStats) (b : PersistentBuffer) : PersistentBuffer :=
  mkBuffer (max_size b) (ttl_minutes b) (delete_limit b) (messages b) (messages_seq b)
           (failed_messages b) (failed_seq b) (statistics b) s.

(** ** SQL helpers *)

(** [UPDATE messages SET ... WHERE cond]. *)
Definition sql_update (cond : Row -> bool) (f : Row -> Row) (rows : list Row)
  : list Row :=
  map (fun r => if cond r then f r else r) rows.

(** [DELETE FROM messages WHERE cond]. *)
Definition sql_delete (cond : Row -> bool) (rows : list Row) : list Row :=
  List.filter (fun r => negb (cond r)) rows.

(** The [rowcount] of an UPDATE or DELETE. *)
Definition sql_rowcount (cond : Row -> bool) (rows : list Row) : Z :=
  Z.of_nat (length (List.filter cond rows)).

(** [LIMIT n]: a negative limit is no limit in SQLite. *)
Definition sql_limit {A : Type} (n : Z) (l : list A) : list A :=
  if n <? 0 then l else take (Z.to_nat n) l.

(** [DELETE FROM messages WHERE cond LIMIT n], rows taken in rowid order. *)
Fixpoint sql_delete_limit (n : nat) (cond : Row -> bool) (rows : list Row)
  : list Row :=
  match n with
  | O => rows
  | S n' =>
      match rows with
      | [] => []
      | r :: rest =>
          if cond r then sql_delete_limit n' cond rest
          else r :: sql_delete_limit n cond rest
      end
  end.

(** The next rowid of an AUTOINCREMENT table: one more than the largest
    rowid the table has ever held. *)
Definition next_rowid (seq : Z) (ids : list Z) : Z :=
  fold_right Z.max seq ids + 1.

Definition id_in (ids : list Z) (r : Row) : bool := bool_decide (r_id r ∈ ids).

Definition has_id (message_id : Z) (r : Row) : bool := r_id r =? message_id.

Definition has_status (s : MessageStatus) (r : Row) : bool := status_eqb (r_status r) s.

(** [status IN ('pending', 'processing')]. *)
Definition is_live (r : Row) : bool := has_status PENDING r || has_status PROCESSING r.

(** [ORDER BY priority DESC, created_at ASC]. *)
Definition lease_order (r1 r2 : Row) : Prop :=
  r_priority r2 < r_priority r1
  \/ (r_priority r1 = r_priority r2 /\ r_created_at r1 <= r_created_at r2).

#[global] Instance lease_order_dec : RelDecision lease_order.
Proof. intros r1 r2; unfold lease_order; apply _. Defined.

(** [ORDER BY processed_at ASC]: NULL sorts first in SQLite. *)
Definition processed_order (r1 r2 : Row) : Prop :=
  match r_processed_at r1, r_processed_at r2 with
  | None, _ => True
  | Some _, None => False
  | Some a, Some b => a <= b
  end.

#[global] Instance processed_order_dec : RelDecision processed_order.
Proof.
  intros r1 r2; unfold processed_order.
  destruct (r_processed_at r1), (r_processed_at r2); apply _.
Defined.

(** Both orders are total preorders. *)
#[global] Instance lease_order_total : Total lease_order.
Proof. intros r1 r2. unfold lease_order. lia. Qed.

#[global] Instance lease_order_trans : Transitive lease_order.
Proof. intros r1 r2 r3. unfold lease_order. lia. Qed.

#[global] Instance processed_order_total : Total processed_order.
Proof.
  intros r1 r2. unfold processed_order.
  destruct (r_processed_at r1), (r_processed_at r2); auto; lia.
Qed.

#[global] Instance processed_order_trans : Transitive processed_order.
Proof.
  intros r1 r2 r3. unfold processed_order.
  destruct (r_processed_at r1), (r_processed_at r2), (r_processed_at r3);
    auto; try lia; tauto.
Qed.

(** ** The operations of [PersistentBuffer] *)

(** [get_pending_count] *)
Definition get_pending_count (b : PersistentBuffer) : Z :=
  sql_rowcount is_live (messages b).

(** [_handle_buffer_overflow].  The ids of the first DELETE come from the
    subquery on the completed rows; when the library rejects the second
    DELETE the exception is logged by the method and the rows deleted so
    far stay deleted (the caller commits). *)
Definition overflow_completed_ids (rows : list Row) : list Z :=
  r_id <$> take 100 (merge_sort processed_order (List.filter (has_status COMPLETED) rows)).

Definition is_past_expiry (now : Z) (r : Row) : bool := r_expire_at r <? now.

Definition _handle_buffer_overflow (now : Z) (b : PersistentBuffer) : PersistentBuffer :=
  let ids := overflow_completed_ids (messages b) in
  let rowcount := sql_rowcount (id_in ids) (messages b) in
  let rows1 := sql_delete (id_in ids) (messages b) in
  if rowcount <? 50 then
    if delete_limit b
    then with_messages (sql_delete_limit 100 (is_past_expiry now) rows1) b
    else with_messages rows1 b
  else with_messages rows1 b.

(** The row that the INSERT of [add_message] writes, when the NOT NULL
    columns are supplied. *)
Definition value_json (v : pyvalue) : string :=
  match v with
  | PStr s => s
  | _ => Json.dumps v
  end.

Definition metadata_json (md : pyvalue) : option string :=
  if py_truthy md then Some (Json.dumps md) else None.

Definition new_row (now ttl : Z) (message_id : Z) (m : BufferedMessage) : option Row :=
  source ← m_source m;
  destination ← m_destination m;
  topic_or_node ← m_topic_or_node m;
  data_type ← m_data_type m;
  Some (mkRow message_id source destination topic_or_node
              (value_json (m_value m)) data_type (m_mapping_id m)
              (m_status m) (m_priority m) (m_retry_count m) (m_max_retries m)
              (default now (m_created_at m))
              None
              (default (now + ttl * 60) (m_expire_at m))
              None
              (metadata_json (m_metadata m))).

Definition count_added (s : RuntimeStats) : RuntimeStats :=
  mkStats (messages_added s + 1) (messages_processed s) (messages_failed s)
          (messages_expired s).

Definition count_processed (s : RuntimeStats) : RuntimeStats :=
  mkStats (messages_added s) (messages_processed s + 1) (messages_failed s)
          (messages_expired s).

Definition count_failed (s : RuntimeStats) : RuntimeStats :=
  mkStats (messages_added s) (messages_processed s) (messages_failed s + 1)
          (messages_expired s).

Definition count_expired (n : Z) (s : RuntimeStats) : RuntimeStats :=
  mkStats (messages_added s) (messages_processed s) (messages_failed s)
          (messages_expired s + n).

(** The INSERT of [add_message] with its commit and its counter: the new
    id, or [None] when the statement raises (a NOT NULL column without a
    value). *)
Definition insert_message (now : Z) (m : BufferedMessage) (b : PersistentBuffer)
  : PersistentBuffer * option Z :=
  let message_id := next_rowid (messages_seq b) (r_id <$> messages b) in
  match new_row now (ttl_minutes b) message_id m with
  | Some row =>
      (mkBuffer (max_size b) (ttl_minutes b) (delete_limit b)
                (messages b ++ [row]) message_id
                (failed_messages b) (failed_seq b) (statistics b)
                (count_added (stats b)),
       Some message_id)
  | None => (b, None)
  end.

(** [add_message] *)
Definition add_message (now : Z) (m : BufferedMessage) (b : PersistentBuffer)
  : PersistentBuffer * option Z :=
  insert_message now m
    (if max_size b <=? get_pending_count b
     then _handle_buffer_overflow now b else b).

(** [_row_to_message]: the value and the metadata, on a text that
    [json.loads] decodes or refuses with [json.JSONDecodeError]. *)
Definition decode_value (text : string) : pyvalue :=
  if String.eqb text "" then PNone
  else match Json.loads text with
       | Some v => v
       | None => PStr text
       end.

Definition decode_metadata (text : option string) : pyvalue :=
  match text with
  | Some t => if String.eqb t "" then PNone else default PNone (Json.loads t)
  | None => PNone
  end.

Definition _row_to_message (r : Row) : BufferedMessage :=
  mkMessage (Some (r_id r)) (Some (r_source r)) (Some (r_destination r))
            (Some (r_topic_or_node r)) (decode_value (r_value r))
            (Some (r_data_type r)) (r_mapping_id r) (r_status r) (r_priority r)
            (r_retry_count r) (r_max_retries r) (Some (r_created_at r))
            (r_processed_at r) (Some (r_expire_at r)) (r_error_message r)
            (decode_metadata (r_metadata r)).

(** [json.loads] raises more than [JSONDecodeError], the one exception
    that [_row_to_message] catches: an integer literal of more than
    [sys.get_int_max_str_digits()] digits (4300 by default) raises
    [ValueError], and arrays and objects nested beyond what the recursion
    limit of the interpreter (1000 by default) leaves raise
    [RecursionError].  A text with no run of more than 4300 digits and with
    at most [safe_nesting] opening brackets raises neither. *)
Definition int_max_str_digits : nat := 4300.

Definition safe_nesting : nat := 100.

Fixpoint digit_runs_within (bound run : nat) (s : list ascii) : bool :=
  match s with
  | [] => true
  | c :: rest =>
      match Json.digit_val c with
      | Some _ => (S run <=? bound)%nat && digit_runs_within bound (S run) rest
      | None => digit_runs_within bound 0 rest
      end
  end.

Definition is_opening (c : ascii) : bool :=
  Ascii.eqb c "["%char || Ascii.eqb c "{"%char.

Definition decodes_quietly (text : string) : bool :=
  let s := list_ascii_of_string text in
  digit_runs_within int_max_str_digits 0 s
  && (length (List.filter is_opening s) <=? safe_nesting)%nat.

(** The two columns that [_row_to_message] decodes. *)
Definition row_decodes_quietly (r : Row) : bool :=
  decodes_quietly (r_value r)
  && match r_metadata r with
     | Some text => decodes_quietly text
     | None => true
     end.


(** The optional filters [source] and [destination]: [if source:] skips
    [None] and the empty string. *)
Definition column_filter (want : option string) (have : string) : bool :=
  match want with
  | Some s => if String.eqb s "" then true else String.eqb have s
  | None => true
  end.

(** The WHERE clause of [get_next_message] and [get_pending_messages]. *)
Definition is_leasable (now : Z) (source destination : option string) (r : Row) : bool :=
  has_status PENDING r
  && (now <? r_expire_at r)
  && (r_retry_count r <? r_max_retries r)
  && column_filter source (r_source r)
  && column_filter destination (r_destination r).

(** A Python integer that SQLite takes as a parameter: one outside 64
    bits raises [OverflowError] when the statement is executed. *)
Definition is_int64 (z : Z) : bool := (- 2 ^ 63 <=? z) && (z <? 2 ^ 63).

(** The rows that the SELECT of a lease hands to the method: none when
    [limit] does not fit 64 bits, since the statement then raises and the
    method returns without having touched the table. *)
Definition select_pending (now limit : Z) (source destination : option string)
    (rows : list Row) : list Row :=
  if is_int64 limit then
    sql_limit limit
      (merge_sort lease_order (List.filter (is_leasable now source destination) rows))
  else [].

(** [get_pending_messages] *)
Definition get_pending_messages (now limit : Z) (source destination : option string)
    (b : PersistentBuffer) : PersistentBuffer * list BufferedMessage :=
  let rows := select_pending now limit source destination (messages b) in
  let ids := r_id <$> rows in
  (with_messages (sql_update (id_in ids) (set_status PROCESSING) (messages b)) b,
   _row_to_message <$> rows).

(** [get_next_message] *)
Definition get_next_message (now : Z) (source destination : option string)
    (b : PersistentBuffer) : PersistentBuffer * option BufferedMessage :=
  match select_pending now 1 source destination (messages b) with
  | row :: _ =>
      (with_messages (sql_update (has_id (r_id row)) (set_status PROCESSING) (messages b)) b,
       Some (_row_to_message row))
  | [] => (b, None)
  end.

(** [mark_completed] *)
Definition mark_completed (now message_id : Z) (b : PersistentBuffer)
  : PersistentBuffer * bool :=
  let b1 := with_messages (sql_update (has_id message_id) (set_completed now) (messages b)) b in
  if 0 <? sql_rowcount (has_id message_id) (messages b)
  then (with_stats (count_processed (stats b1)) b1, true)
  else (b1, false).

(** [mark_failed] *)
Definition dead_letter (now : Z) (fid message_id retries : Z) (err : option string)
    (row : Row) : FailedRow :=
  mkFailed fid message_id (r_source row) (r_destination row) (r_topic_or_node row)
           (r_value row) err now retries (r_metadata row).

Definition mark_failed (now message_id : Z) (error_message : option string)
    (b : PersistentBuffer) : PersistentBuffer * bool :=
  match List.find (has_id message_id) (messages b) with
  | None => (b, false)
  | Some row =>
      let retry_count := r_retry_count row + 1 in
      if r_max_retries row <=? retry_count then
        let fid := next_rowid (failed_seq b) (f_id <$> failed_messages b) in
        (mkBuffer (max_size b) (ttl_minutes b) (delete_limit b)
                  (sql_update (has_id message_id)
                              (set_failure FAILED retry_count error_message) (messages b))
                  (messages_seq b)
                  (failed_messages b
                     ++ [dead_letter now fid message_id retry_count error_message row])
                  fid (statistics b) (count_failed (stats b)),
         true)
      else
        (with_messages
           (sql_update (has_id message_id)
                       (set_failure PENDING retry_count error_message) (messages b)) b,
         true)
  end.

(** [_cleanup] (the sweep).  A comparison with a NULL [processed_at] is
    not true, so such a row is kept. *)
Definition day : Z := 86400.

Definition is_overdue (now : Z) (r : Row) : bool := is_past_expiry now r && is_live r.

Definition is_old_completed (now : Z) (r : Row) : bool :=
  has_status COMPLETED r
  && match r_processed_at r with
     | Some t => t <? now - day
     | None => false
     end.

Definition is_old_expired (now : Z) (r : Row) : bool :=
  has_status EXPIRED r && (r_expire_at r <? now - 7 * day).

Definition _cleanup (now : Z) (b : PersistentBuffer) : PersistentBuffer :=
  let expired_count := sql_rowcount (is_overdue now) (messages b) in
  let rows1 := sql_update (is_overdue now) (set_status EXPIRED) (messages b) in
  let stats1 := if 0 <? expired_count
                then count_expired expired_count (stats b) else stats b in
  let rows2 := sql_delete (is_old_completed now) rows1 in
  let rows3 := sql_delete (is_old_expired now) rows2 in
  mkBuffer (max_size b) (ttl_minutes b) (delete_limit b) rows3 (messages_seq b)
           (failed_messages b) (failed_seq b)
           (List.filter (fun t => negb (t <? now - 30 * day)) (statistics b))
           stats1.

(** [reset_processing_messages] *)
Definition reset_processing_messages (b : PersistentBuffer) : PersistentBuffer :=
  with_messages (sql_update (has_status PROCESSING) (set_status PENDING) (messages b)) b.

(** [GROUP BY key] with [COUNT( * )]: one pair per distinct key. *)
Definition group_count {K : Type} `{EqDecision K} (keys : list K) : list (K * Z) :=
  (fun k => (k, Z.of_nat (length (List.filter (fun k' => bool_decide (k' = k)) keys))))
    <$> remove_dups keys.

Definition route (r : Row) : string * string := (r_source r, r_destination r).

(** [int(x)] of Python on an exact quotient: truncation towards zero. *)
Definition py_int (q : Q) : Z := Z.quot (Qnum q) (Zpos (Qden q)).

Definition Qlt_bool (a b : Q) : bool := negb (Qle_bool b a).

(** The dictionary returned by [get_statistics]; the percentage is kept
    as an exact quotient. *)
Record BufferStatistics : Type := mkStatistics {
  s_buffer_size : Z;
  s_max_size : Z;
  s_status_counts : list (MessageStatus * Z);
  s_route_counts : list (string * string * Z);
  s_oldest_pending : option Z;
  s_runtime_stats : RuntimeStats;
  s_utilization_percent : Q
}.

Definition list_min (l : list Z) : option Z :=
  match l with
  | [] => None
  | x :: rest => Some (fold_right Z.min x rest)
  end.

(** [get_statistics]: [None] is the empty dictionary returned when the
    division by [max_size] raises. *)
Definition get_statistics (b : PersistentBuffer) : option BufferStatistics :=
  if max_size b =? 0 then None
  else
    Some (mkStatistics
            (get_pending_count b)
            (max_size b)
            (group_count (r_status <$> messages b))
            (group_count (route <$> List.filter is_live (messages b)))
            (list_min (r_created_at <$> List.filter (has_status PENDING) (messages b)))
            (stats b)
            (inject_Z (get_pending_count b) / inject_Z (max_size b) * 100)%Q).

(** ** [buffer_analytics.py] *)

Inductive Severity : Set := high | medium.

Inductive AnomalyType : Set :=
  | stuck_messages
  | high_failure_rate
  | queue_buildup
  | high_retry_messages
  | route_congestion
  | slow_processing.

(** An entry of the list returned by [detect_anomalies]: its ['type'],
    ['severity'], ['count'] and ['route'] (the text fields that only
    repeat them are left out). *)
Record Anomaly : Type := mkAnomaly {
  a_type : AnomalyType;
  a_severity : Severity;
  a_count : option Z;
  a_route : option string
}.

Definition route_name (rt : string * string) : string :=
  String.append rt.1 (String.append "->" rt.2).

Definition Qsum (l : list Q) : Q := fold_right Qplus 0%Q l.

(** [AVG]: NULL on no row. *)
Definition sql_avg (l : list Z) : option Q :=
  match l with
  | [] => None
  | _ => Some (Qsum (inject_Z <$> l) / inject_Z (Z.of_nat (length l)))%Q
  end.

(** Block 1: rows stuck in processing for more than five minutes. *)
Definition detect_stuck (now : Z) (rows : list Row) : list Anomaly :=
  let n := sql_rowcount (fun r => has_status PROCESSING r && (r_created_at r + 300 <? now)) rows in
  if 0 <? n then [mkAnomaly stuck_messages high (Some n) None] else [].

(** Block 2: share of failed rows among those of the last hour. *)
Definition detect_failure_rate (now : Z) (rows : list Row) : list Anomaly :=
  let recent := List.filter (fun r => now - 3600 <? r_created_at r) rows in
  let total := Z.of_nat (length recent) in
  let failed := sql_rowcount (has_status FAILED) recent in
  if 0 <? total then
    let failure_rate := (inject_Z failed / inject_Z total * 100)%Q in
    if Qlt_bool 10 failure_rate then
      [mkAnomaly high_failure_rate
                 (if Qlt_bool 25 failure_rate then high else medium) None None]
    else []
  else [].

(** Block 3: pending rows piling up. *)
Definition detect_buildup (rows : list Row) : list Anomaly :=
  let pending_count := sql_rowcount (has_status PENDING) rows in
  if 1000 <? pending_count then
    [mkAnomaly queue_buildup (if 5000 <? pending_count then high else medium)
               (Some pending_count) None]
  else [].

(** Block 4: rows close to their retry limit. *)
Definition detect_high_retry (rows : list Row) : list Anomaly :=
  let n := sql_rowcount
             (fun r => (r_max_retries r - 1 <=? r_retry_count r)
                       && negb (has_status COMPLETED r || has_status FAILED r)) rows in
  if 0 <? n then [mkAnomaly high_retry_messages medium (Some n) None] else [].

(** Block 5: the routes of the live rows, [HAVING count > 100
    ORDER BY count DESC], and the loop over them. *)
Definition count_desc (a b : string * string * Z) : Prop := b.2 <= a.2.

#[global] Instance count_desc_dec : RelDecision count_desc.
Proof. intros a b; unfold count_desc; apply _. Defined.

Definition congested_routes (rows : list Row) : list (string * string * Z) :=
  merge_sort count_desc
    (List.filter (fun g => 100 <? g.2)
                 (group_count (route <$> List.filter is_live rows))).

Definition detect_route_congestion (rows : list Row) : list Anomaly :=
  flat_map (fun g : string * string * Z =>
              if 500 <? g.2
              then [mkAnomaly route_congestion medium (Some g.2) (Some (route_name g.1))]
              else [])
           (congested_routes rows).

(** Block 6: average latency of the rows completed in the last hour. *)
Definition recent_latencies (now : Z) (rows : list Row) : list Z :=
  omap (fun r =>
          if has_status COMPLETED r then
            match r_processed_at r with
            | Some t => if now - 3600 <? t then Some (t - r_created_at r) else None
            | None => None
            end
          else None) rows.

Definition detect_slow (now : Z) (rows : list Row) : list Anomaly :=
  match sql_avg (recent_latencies now rows) with
  | Some avg_time =>
      if Qlt_bool 10 avg_time then [mkAnomaly slow_processing medium None None] else []
  | None => []
  end.

(** [detect_anomalies] *)
Definition detect_anomalies (now : Z) (rows : list Row) : list Anomaly :=
  detect_stuck now rows
  ++ detect_failure_rate now rows
  ++ detect_buildup rows
  ++ detect_high_retry rows
  ++ detect_route_congestion rows
  ++ detect_slow now rows.

(** *** [predict_load] *)

(** Calendar fields of an instant (seconds since 1970-01-01, a Thursday). *)
Definition hour_of_day (t : Z) : Z := (t mod day) / 3600.

(** [strftime('%w', t)] of SQLite: 0 is Sunday. *)
Definition sql_day_of_week (t : Z) : Z := (t / day + 4) mod 7.

(** [datetime.weekday()] of Python: 0 is Monday. *)
Definition py_weekday (t : Z) : Z := (t / day + 3) mod 7.

(** [strftime('%Y-%m-%d %H:00')]: the start of the hour. *)
Definition hour_start (t : Z) : Z := t - t mod 3600.

Record PatternStats : Type := mkPattern {
  ps_mean : Q;
  ps_stdev : Q;
  ps_samples : Z
}.

Record Prediction : Type := mkPrediction {
  p_time : Z;
  p_predicted_messages : Z;
  p_confidence : Z;
  p_range_min : Z;
  p_range_max : Z
}.

(** The four texts of [_get_load_recommendation]. *)
Inductive Recommendation : Set :=
  | load_normal
  | load_moderate
  | load_high
  | load_critical.

Record LoadPrediction : Type := mkLoadPrediction {
  lp_next_hours : Z;
  lp_predictions : list Prediction;
  lp_total_predicted_messages : Z;
  lp_current_pending : Z;
  lp_estimated_total_load : Z;
  lp_recommendation : Recommendation
}.

Definition _get_load_recommendation (estimated_load : Z) : Recommendation :=
  if estimated_load <? 1000 then load_normal
  else if estimated_load <? 5000 then load_moderate
  else if estimated_load <? 10000 then load_high
  else load_critical.

(** [statistics.mean] on integers, as an exact quotient. *)
Definition mean (values : list Z) : Q :=
  (Qsum (inject_Z <$> values) / inject_Z (Z.of_nat (length values)))%Q.

Section LoadPrediction.

(** [statistics.stdev] takes a square root; the library function is a
    parameter of the model. *)
Variable stdev : list Z -> Q.

(** The first query: the rows of the last 30 days counted per
    (day of week, hour of day). *)
Definition bucket (r : Row) : Z * Z :=
  (sql_day_of_week (r_created_at r), hour_of_day (r_created_at r)).

Definition history (now : Z) (rows : list Row) : list (Z * Z * Z) :=
  group_count (bucket <$> List.filter (fun r => now - 30 * day <? r_created_at r) rows).

(** [patterns[key].append(row['message_count'])] on a [defaultdict(list)]. *)
Definition patterns_of (groups : list (Z * Z * Z)) : gmap (Z * Z) (list Z) :=
  foldl (fun (p : gmap (Z * Z) (list Z)) g =>
           <[g.1 := default [] (p !! g.1) ++ [g.2]]> p) ∅ groups.

Definition pattern_stats_of (patterns : gmap (Z * Z) (list Z))
  : gmap (Z * Z) PatternStats :=
  omap (fun values : list Z =>
          match values with
          | [] => None
          | _ => Some (mkPattern (mean values)
                                 (if (1 <? length values)%nat then stdev values else 0%Q)
                                 (Z.of_nat (length values)))
          end) patterns.

(** The second query: the average hourly count of the last 7 days,
    [or 50]. *)
Definition fallback_load (now : Z) (rows : list Row) : Q :=
  let hours := (fun r => r_created_at r / 3600)
                 <$> List.filter (fun r => now - 7 * day <? r_created_at r) rows in
  match sql_avg (snd <$> group_count hours) with
  | Some avg => if Qeq_bool avg 0 then 50%Q else avg
  | None => 50%Q
  end.

(** One turn of the loop [for hour_offset in range(next_hours)]. *)
Definition predict_hour (now : Z) (rows : list Row)
    (pattern_stats : gmap (Z * Z) PatternStats) (hour_offset : Z) : Prediction :=
  let future_time := now + hour_offset * 3600 in
  let key := (py_weekday future_time, hour_of_day future_time) in
  match pattern_stats !! key with
  | Some st =>
      let predicted_load := ps_mean st in
      mkPrediction (hour_start future_time)
                   (py_int predicted_load)
                   (Z.min 90 (50 + ps_samples st * 2))
                   (Z.max 0 (py_int (predicted_load - ps_stdev st)%Q))
                   (py_int (predicted_load + ps_stdev st)%Q)
  | None =>
      let avg_load := fallback_load now rows in
      mkPrediction (hour_start future_time)
                   (py_int avg_load)
                   30
                   (py_int (avg_load * (1 # 2))%Q)
                   (py_int (avg_load * (3 # 2))%Q)
  end.

Definition predict_load (now next_hours : Z) (rows : list Row) : LoadPrediction :=
  let pattern_stats := pattern_stats_of (patterns_of (history now rows)) in
  let predictions :=
    predict_hour now rows pattern_stats
      <$> (Z.of_nat <$> seq 0 (Z.to_nat next_hours)) in
  let total_predicted := foldr Z.add 0 (p_predicted_messages <$> predictions) in
  let current_pending := sql_rowcount (has_status PENDING) rows in
  mkLoadPrediction next_hours predictions total_predicted current_pending
                   (current_pending + total_predicted)
                   (_get_load_recommendation (current_pending + total_predicted)).

End LoadPrediction.

(** ** Reading the queries as propositions *)

(** The optional filter, read as a proposition: a filter that is given
    and not empty must equal the column. *)
Definition passes_filter (want : option string) (have : string) : Prop :=
  match want with
  | Some s => s <> "" -> have = s
  | None => True
  end.

(** The WHERE clause of the lease, read as a proposition. *)
Definition leasable (now : Z) (source destination : option string) (r : Row) : Prop :=
  r_status r = PENDING
  /\ now < r_expire_at r
  /\ r_retry_count r < r_max_retries r
  /\ passes_filter source (r_source r)
  /\ passes_filter destination (r_destination r).


(** [SELECT COUNT( * ) FROM messages WHERE status = s]. *)
Definition count_status (s : MessageStatus) (rows : list Row) : Z :=
  sql_rowcount (has_status s) rows.

(** [SELECT * FROM messages WHERE id = ?], first row. *)
Definition lookup_message (message_id : Z) (b : PersistentBuffer) : option Row :=
  List.find (has_id message_id) (messages b).

(** [SELECT * FROM failed_messages WHERE original_id = ?]. *)
Definition dead_letters (message_id : Z) (b : PersistentBuffer) : list FailedRow :=
  List.filter (fun f => f_original_id f =? message_id) (failed_messages b).

(** A run of [mark_failed] calls on one message, each with its instant
    and its error text. *)
Definition mark_failed_seq (calls : list (Z * option string)) (message_id : Z)
    (b : PersistentBuffer) : PersistentBuffer :=
  foldl (fun acc call => (mark_failed call.1 message_id call.2 acc).1) b calls.

Definition is_terminal (s : MessageStatus) : Prop :=
  s = COMPLETED \/ s = FAILED \/ s = EXPIRED.

(** The status that [mark_failed] writes on a row. *)
Definition fail_status (r : Row) : MessageStatus :=
  if r_max_retries r <=? r_retry_count r + 1 then FAILED else PENDING.

Definition status_of (message_id : Z) (b : PersistentBuffer) : option MessageStatus :=
  r_status <$> lookup_message message_id b.

(** The constraints of the table [messages]: [id] is a primary key, and
    the AUTOINCREMENT counter is not below any id in use. *)
Definition rows_wf (seq : Z) (rows : list Row) : Prop :=
  NoDup (r_id <$> rows) /\ Forall (fun r => r_id r <= seq) rows.

Definition buffer_wf (b : PersistentBuffer) : Prop :=
  rows_wf (messages_seq b) (messages b).

(** An operation keeps the status of the terminal messages of [b]. *)
Definition status_kept (op : PersistentBuffer -> PersistentBuffer)
    (b : PersistentBuffer) : Prop :=
  forall message_id r r',
    lookup_message message_id b = Some r ->
    is_terminal (r_status r) ->
    lookup_message message_id (op b) = Some r' ->
    r_status r' = r_status r.

(** Scenario S3 as the specification words it: the message is pending
    after each of the first three [fail] calls, and the fourth one makes it
    failed with one dead letter and [retry_count = 3] in both tables. *)
Definition four_fail_calls_as_stated (b : PersistentBuffer) (message_id : Z)
    (c1 c2 c3 c4 : Z * option string) : Prop :=
  status_of message_id (mark_failed_seq [c1] message_id b) = Some PENDING
  /\ status_of message_id (mark_failed_seq [c1; c2] message_id b) = Some PENDING
  /\ status_of message_id (mark_failed_seq [c1; c2; c3] message_id b) = Some PENDING
  /\ let b4 := mark_failed_seq [c1; c2; c3; c4] message_id b in
     status_of message_id b4 = Some FAILED
     /\ r_retry_count <$> lookup_message message_id b4 = Some 3
     /\ f_retry_count <$> dead_letters message_id b4 = [3].

(** Property P2 as the specification words it, after a run of [fail]
    calls on one message. *)
Definition one_dead_letter_when_failed (calls : list (Z * option string))
    (message_id : Z) (b : PersistentBuffer) : Prop :=
  let b' := mark_failed_seq calls message_id b in
  status_of message_id b' = Some FAILED ->
  length (dead_letters message_id b') = 1%nat.

(** The sweep, row by row: a live row whose expiry is strictly in the
    past becomes expired; a completed row processed more than a day ago
    and an expired row (also one that has just become expired) whose
    expiry is more than seven days old are deleted; any other row is
    kept as it is. *)
Definition sweep_row (now : Z) (r : Row) : option Row :=
  if (r_expire_at r <? now) && is_live r then
    if r_expire_at r <? now - 7 * day then None else Some (set_status EXPIRED r)
  else if has_status COMPLETED r
          && match r_processed_at r with Some t => t <? now - day | None => false end
  then None
  else if has_status EXPIRED r && (r_expire_at r <? now - 7 * day) then None
  else Some r.

(** The expiry of the sweep as the specification words it, with
    [expire_at <= now]. *)
Definition sweep_expires_as_stated (now : Z) (b : PersistentBuffer) : Prop :=
  forall message_id r,
    lookup_message message_id b = Some r ->
    r_expire_at r <= now ->
    is_live r = true ->
    status_of message_id (_cleanup now b) = Some EXPIRED
    \/ lookup_message message_id (_cleanup now b) = None.

(** The NOT NULL columns that [add_message] takes from the message. *)
Definition insertable (m : BufferedMessage) : Prop :=
  is_Some (m_source m) /\ is_Some (m_destination m)
  /\ is_Some (m_topic_or_node m) /\ is_Some (m_data_type m).


(** ** Sample data *)

Module Sample.

Definition no_stats : RuntimeStats := mkStats 0 0 0 0.

Definition empty_buffer (capacity : Z) : PersistentBuffer :=
  mkBuffer capacity 60 true [] 0 [] 0 [] no_stats.

(** A change of an OPC-UA variable on its way to MQTT. *)
Definition message (data_type : string) (v : pyvalue) (p : MessagePriority)
  : BufferedMessage :=
  mkMessage None (Some "opcua") (Some "mqtt") (Some "ns=2;s=Temperature") v
            (Some data_type) (Some "plant/temperature:ns=2;s=Temperature")
            PENDING (priority_value p) 0 3 None None None None PNone.

Definition row (message_id : Z) (s : MessageStatus) (priority created expire : Z)
  : Row :=
  mkRow message_id "mqtt" "opcua" "plant/temperature" "23.5" "Float" None s
        priority 0 3 created None expire None None.

Definition buffer_of (capacity : Z) (rows : list Row) : PersistentBuffer :=
  mkBuffer capacity 60 true rows (Z.of_nat (length rows)) [] 0 [] no_stats.

(** Three messages enqueued at the same instant with priorities LOW,
    CRITICAL and NORMAL. *)
Definition three_priorities : PersistentBuffer :=
  buffer_of 10000 [row 1 PENDING 0 100 3700; row 2 PENDING 3 100 3700;
                   row 3 PENDING 1 100 3700].

(** One pending and one leased message in a buffer of capacity 2. *)
Definition full : PersistentBuffer :=
  buffer_of 2 [row 1 PENDING 1 100 3700; row 2 PROCESSING 1 101 3701].

(** One pending message with [max_retries = 3]. *)
Definition one_pending : PersistentBuffer :=
  buffer_of 10000 [row 1 PENDING 1 100 3700].

(** A message that exhausted its retries, and a delivered one. *)
Definition one_failed : PersistentBuffer :=
  mark_failed_seq [(201, Some "timeout"); (202, Some "timeout"); (203, Some "timeout")]
                  1 one_pending.

Definition one_completed : PersistentBuffer :=
  (mark_completed 201 1 one_pending).1.

(** Scenario S4: a message enqueued at instant 0 with a time to live of
    one minute. *)
Definition short_lived : PersistentBuffer :=
  (add_message 0 (message "Float" (PInt 23) NORMAL)
               (mkBuffer 10000 1 true [] 0 [] 0 [] no_stats)).1.

(** A string that reads as a number, sent as a [String] variable. *)
Definition numeric_text : PersistentBuffer :=
  (add_message 100 (message "String" (PStr "123") NORMAL) (empty_buffer 10000)).1.

(** [n] pending messages on the route mqtt -> opcua. *)
Definition route_rows (n : nat) : list Row :=
  (fun i => row (Z.of_nat i) PENDING 1 100 3700) <$> seq 1 n.

(** Monday 1970-01-05 at 10:00, and one message created at that time. *)
Definition monday_10h : Z := 4 * day + 10 * 3600.

Definition monday_history : list Row := [row 1 COMPLETED 1 monday_10h (monday_10h + 3600)].

End Sample.

(** ** Sums *)

Definition Zsum (l : list Z) : Z := foldr Z.add 0 l.

(** The dead letters that the counter [messages_failed] has not counted
    (negative when the table holds rows from an earlier run). *)
Definition failed_gap (b : PersistentBuffer) : Z :=
  messages_failed (stats b) - Z.of_nat (length (failed_messages b)).

(** ** The egress worker of [mqtt_opcua_bridge.py] *)

(** The two counters of [performance_stats] that the worker updates. *)
Record PerformanceStats : Set := mkPerformance {
  perf_processed : Z;
  perf_failed : Z
}.

(** [mark_completed(message.id)] and [mark_failed(message.id, str(e))]:
    an id that is [None] matches no row. *)
Definition complete_message (now : Z) (message : BufferedMessage) (b : PersistentBuffer)
  : PersistentBuffer :=
  match m_id message with
  | Some message_id => (mark_completed now message_id b).1
  | None => b
  end.

Definition fail_message (now : Z) (message : BufferedMessage) (err : string)
    (b : PersistentBuffer) : PersistentBuffer :=
  match m_id message with
  | Some message_id => (mark_failed now message_id (Some err) b).1
  | None => b
  end.

(** How the awaited adapter call ends: it returns, it raises an
    exception that [except Exception] catches, or it is left by an
    exception that is no [Exception], such as [asyncio.CancelledError]
    when the task is cancelled at the await. *)
Inductive CallOutcome : Set :=
  | Returned
  | Raised (e : string)
  | Cancelled.

Section Worker.

(** The adapter call [_handle_opcua_to_mqtt_message]. *)
Variable handler : BufferedMessage -> CallOutcome.

(** The instant at which the outcome of a message is written. *)
Variable instant : BufferedMessage -> Z.

(** [running k] is what the test [if not self.running] reads in the
    iteration of index [k]: [stop] may clear the flag while an adapter
    call is awaited. *)
Variable running : nat -> bool.

(** The [try] statement of the loop of [_process_mqtt_messages]; [None]
    when an exception leaves it. *)
Definition process_message (acc : PersistentBuffer * PerformanceStats)
    (message : BufferedMessage) : option (PersistentBuffer * PerformanceStats) :=
  let outcome :=
    if bool_decide (m_destination message = Some "mqtt") then handler message
    else Returned in
  match outcome with
  | Returned =>
      Some (complete_message (instant message) message acc.1,
            mkPerformance (perf_processed acc.2 + 1) (perf_failed acc.2))
  | Raised e =>
      Some (fail_message (instant message) message e acc.1,
            mkPerformance (perf_processed acc.2) (perf_failed acc.2 + 1))
  | Cancelled => None
  end.

(** The loop [for message in messages] from the iteration of index [k]
    on.  The boolean tells whether the loop ended or was left by [break]
    ([true]), or an exception left the method ([false]). *)
Fixpoint process_batch (k : nat) (acc : PersistentBuffer * PerformanceStats)
    (batch : list BufferedMessage) : PersistentBuffer * PerformanceStats * bool :=
  match batch with
  | [] => (acc, true)
  | message :: rest =>
      if running k then
        match process_message acc message with
        | Some acc' => process_batch (S k) acc' rest
        | None => (acc, false)
        end
      else (acc, true)
  end.

(** [_process_mqtt_messages]: one batch of at most 10 messages for MQTT. *)
Definition _process_mqtt_messages (now : Z) (b : PersistentBuffer)
    (perf : PerformanceStats) : PersistentBuffer * PerformanceStats * bool :=
  let leased := get_pending_messages now 10 None (Some "mqtt") b in
  process_batch 0 (leased.1, perf) leased.2.

(** The row of a leased message, column by column: as the lease leaves
    it, and as the worker leaves it once the adapter call has returned or
    raised. *)
Definition leased_row (r : Row) : Row :=
  mkRow (r_id r) (r_source r) (r_destination r) (r_topic_or_node r) (r_value r)
        (r_data_type r) (r_mapping_id r) PROCESSING (r_priority r) (r_retry_count r)
        (r_max_retries r) (r_created_at r) (r_processed_at r) (r_expire_at r)
        (r_error_message r) (r_metadata r).

Definition worker_outcome (r : Row) : Row :=
  match handler (_row_to_message r) with
  | Returned =>
      mkRow (r_id r) (r_source r) (r_destination r) (r_topic_or_node r) (r_value r)
            (r_data_type r) (r_mapping_id r) COMPLETED (r_priority r) (r_retry_count r)
            (r_max_retries r) (r_created_at r) (Some (instant (_row_to_message r)))
            (r_expire_at r) (r_error_message r) (r_metadata r)
  | Raised e =>
      mkRow (r_id r) (r_source r) (r_destination r) (r_topic_or_node r) (r_value r)
            (r_data_type r) (r_mapping_id r)
            (if r_max_retries r <=? r_retry_count r + 1 then FAILED else PENDING)
            (r_priority r) (r_retry_count r + 1) (r_max_retries r) (r_created_at r)
            (r_processed_at r) (r_expire_at r) (Some e) (r_metadata r)
  | Cancelled => leased_row r
  end.

End Worker.

(** Two changes of the variable on their way to MQTT, enqueued one
    second apart. *)
Definition two_changes : PersistentBuffer :=
  (add_message 101 (Sample.message "Float" (PFloat "23.5") NORMAL)
     (add_message 100 (Sample.message "Float" (PFloat "23.4") NORMAL)
                  (Sample.empty_buffer 10000)).1).1.


(** ** [buffer_monitor.py] *)

(** The WHERE clause of [reset_stuck_messages]: processing, and created
    more than five minutes ago. *)
Definition is_stuck (now : Z) (r : Row) : bool :=
  has_status PROCESSING r && (r_created_at r + 300 <? now).

(** [BufferMonitor.reset_stuck_messages] *)
Definition reset_stuck_messages (now : Z) (b : PersistentBuffer) : PersistentBuffer :=
  with_messages (sql_update (is_stuck now) (set_status PENDING) (messages b)) b.

(** The live rows of one route. *)
Definition on_route (rt : string * string) (r : Row) : bool :=
  is_live r && bool_decide (route r = rt).

(** ** [BufferAnalytics.analyze_performance] *)

Inductive Trend : Set :=
  | increasing
  | decreasing
  | stable
  | insufficient_data
  | no_data.

(** One entry of [hourly_data]; times are exact quotients of seconds. *)
Record HourlyData : Type := mkHourly {
  h_hour : Z;
  h_created : Z;
  h_completed : Z;
  h_failed : Z;
  h_avg_processing_time : Q;
  h_max_processing_time : Q;
  h_success_rate : Q
}.

Record PerformanceReport : Type := mkReport {
  pr_period_hours : Z;
  pr_total_messages : Z;
  pr_completed_messages : Z;
  pr_failed_messages : Z;
  pr_success_rate : Q;
  pr_avg_throughput_per_hour : Q;
  pr_avg_processing_time_seconds : Q;
  pr_trend : Trend;
  pr_hourly_data : list HourlyData
}.

(** [strftime('%Y-%m-%d %H:00', created_at)]: the hour of the row. *)
Definition hour_bucket (r : Row) : Z := r_created_at r / 3600.

(** [WHERE created_at > datetime('now', -hours || ' hours')]. *)
Definition in_window (now hours : Z) (r : Row) : bool :=
  now - hours * 3600 <? r_created_at r.

(** The seconds from creation to completion of a completed row. *)
Definition processing_time (r : Row) : option Z :=
  if has_status COMPLETED r then
    match r_processed_at r with
    | Some t => Some (t - r_created_at r)
    | None => None
    end
  else None.

Definition list_max (l : list Z) : option Z :=
  match l with
  | [] => None
  | x :: rest => Some (fold_right Z.max x rest)
  end.

(** One row of the query: the aggregates of the rows of hour [h]. *)
Definition hourly_row (window : list Row) (h : Z) : HourlyData :=
  let group := List.filter (fun r => hour_bucket r =? h) window in
  let created := Z.of_nat (length group) in
  let completed := sql_rowcount (has_status COMPLETED) group in
  let times := omap processing_time group in
  mkHourly h created completed
           (sql_rowcount (has_status FAILED) group)
           (default 0%Q (sql_avg times))
           (default 0%Q (inject_Z <$> list_max times))
           (if 0 <? created then (inject_Z completed / inject_Z created * 100)%Q else 0%Q).

(** [GROUP BY hour ORDER BY hour]. *)
Definition hourly_rows (now hours : Z) (rows : list Row) : list HourlyData :=
  let window := List.filter (in_window now hours) rows in
  hourly_row window <$> merge_sort Z.le (remove_dups (hour_bucket <$> window)).

Definition Qmean (l : list Q) : Q := (Qsum l / inject_Z (Z.of_nat (length l)))%Q.

(** [l[-n:]] and [l[:-n]] of Python, for [n > 0]. *)
Definition last_n {A : Type} (n : nat) (l : list A) : list A := drop (length l - n) l.

Definition but_last_n {A : Type} (n : nat) (l : list A) : list A := take (length l - n) l.

(** The trend of the completed counts; the factors 1.1 and 0.9 are taken
    as the exact quotients 11/10 and 9/10. *)
Definition trend_of (hourly_data : list HourlyData) : Trend :=
  if (1 <? length hourly_data)%nat then
    let recent_throughput := mean (h_completed <$> last_n 3 hourly_data) in
    let older_throughput :=
      if (3 <? length hourly_data)%nat
      then mean (h_completed <$> but_last_n 3 hourly_data)
      else recent_throughput in
    if Qlt_bool (older_throughput * (11 # 10)) recent_throughput then increasing
    else if Qlt_bool recent_throughput (older_throughput * (9 # 10)) then decreasing
    else stable
  else insufficient_data.

(** [analyze_performance] *)
Definition analyze_performance (now hours : Z) (rows : list Row) : PerformanceReport :=
  let hourly_data := hourly_rows now hours rows in
  match hourly_data with
  | [] => mkReport hours 0 0 0 0 0 0 no_data []
  | _ :: _ =>
      let total_created := Zsum (h_created <$> hourly_data) in
      let total_completed := Zsum (h_completed <$> hourly_data) in
      let total_failed := Zsum (h_failed <$> hourly_data) in
      let processing_times :=
        List.filter (fun t => Qlt_bool 0 t) (h_avg_processing_time <$> hourly_data) in
      mkReport hours total_created total_completed total_failed
               (if 0 <? total_created
                then (inject_Z total_completed / inject_Z total_created * 100)%Q
                else 0%Q)
               (inject_Z total_completed / inject_Z (Z.of_nat (length hourly_data)))%Q
               (match processing_times with [] => 0%Q | _ => Qmean processing_times end)
               (trend_of hourly_data)
               hourly_data
  end.

(** ** [sap_bridge/sap_connector.py] *)

(** [str.lstrip('/')] and [str.rstrip('/')]. *)
Fixpoint lstrip_slash (s : string) : string :=
  match s with
  | String c rest => if Ascii.eqb c "/" then lstrip_slash rest else s
  | EmptyString => EmptyString
  end.

Fixpoint rstrip_slash (s : string) : string :=
  match s with
  | String c rest =>
      match rstrip_slash rest with
      | EmptyString => if Ascii.eqb c "/" then EmptyString else String c EmptyString
      | kept => String c kept
      end
  | EmptyString => EmptyString
  end.

(** [SAPConnector._build_url]; [endpoint] is [self.config.endpoint]. *)
Definition _build_url (endpoint : string) (path : option string) : string :=
  let base := rstrip_slash endpoint in
  let path := lstrip_slash (default "" path) in
  if String.eqb path "" then base
  else String.append base (String.append "/" path).

(** What one [session.post] does: a response with its status code, a
    [requests.RequestException], or any other exception. *)
Inductive PostOutcome : Set :=
  | Response (status_code : Z)
  | RequestException
  | OtherException.

Definition is_accepted (o : PostOutcome) : bool :=
  match o with
  | Response c => (c =? 200) || (c =? 201) || (c =? 202)
  | _ => false
  end.

(** [str.lower] on the characters of the model (U+0000 to U+00FF). *)
Definition lower_char (c : ascii) : ascii :=
  let n := nat_of_ascii c in
  if ((65 <=? n) && (n <=? 90) || (192 <=? n) && (n <=? 222) && negb (n =? 215))%nat
  then ascii_of_nat (n + 32)
  else c.

Fixpoint lower (s : string) : string :=
  match s with
  | String c rest => String (lower_char c) (lower rest)
  | EmptyString => EmptyString
  end.

(** The fields of [SAPAuthConfig] that the connector reads for a
    token. *)
Record SAPAuthConfig : Set := mkAuth {
  auth_type : string;
  token_url : option string;
  client_id : option string;
  client_secret : option string
}.

(** The cache [_token_info]. *)
Record TokenInfo : Set := mkToken {
  access_token : option string;
  expires_at : Z
}.

(** What the request for a token does: a response whose body gives
    [access_token] and an [expires_in] that [int] converts; a
    [requests.RequestException], which [raise_for_status] also raises on an
    error status; or any other exception, such as that of [int] on an
    [expires_in] that is no number. *)
Inductive TokenResponse : Set :=
  | Granted (token : option string) (expires_in : Z)
  | TokenRequestException
  | TokenOtherException.

(** The truth value of an optional text: neither [None] nor empty. *)
Definition is_set (s : option string) : bool :=
  match s with
  | Some text => negb (String.eqb text "")
  | None => false
  end.

Definition token_cached (now : Z) (info : option TokenInfo) : bool :=
  match info with
  | Some cached => now <? expires_at cached
  | None => false
  end.

(** [SAPConnector._get_oauth_token]: the token ([None] inside [Some]
    when there is none, [None] when an exception leaves the method), the
    number of requests sent and the cache afterwards. *)
Definition _get_oauth_token (now : Z) (auth : SAPAuthConfig) (info : option TokenInfo)
    (response : TokenResponse) : option (option string) * nat * option TokenInfo :=
  if token_cached now info then (Some (info ≫= access_token), 0%nat, info)
  else if negb (is_set (token_url auth) && is_set (client_id auth)
                && is_set (client_secret auth))
  then (Some None, 0%nat, info)
  else
    match response with
    | Granted token expires_in =>
        (Some token, 1%nat, Some (mkToken token (now + Z.max 30 (expires_in - 60))))
    | TokenRequestException => (Some None, 1%nat, info)
    | TokenOtherException => (None, 1%nat, info)
    end.

(** [SAPConnector._build_headers]: the bearer token of the header
    [Authorization], if any. *)
Definition _build_headers (now : Z) (auth : SAPAuthConfig) (info : option TokenInfo)
    (response : TokenResponse) : option (option string) * nat * option TokenInfo :=
  if String.eqb (lower (auth_type auth)) "oauth2" then
    match _get_oauth_token now auth info response with
    | (Some token, sent, info') =>
        (Some (if is_set token then token else None), sent, info')
    | (None, sent, info') => (None, sent, info')
    end
  else (Some None, 0%nat, info).

(** [time.sleep] raises [ValueError] on a negative number of seconds and
    [OverflowError] on one that does not fit 64 bits in nanoseconds. *)
Definition sleep_raises (seconds : Z) : bool :=
  (seconds <? 0) || (9223372036 <? seconds).

(** The loop of [SAPConnector.push] from attempt [attempt] on, with
    [remaining] attempts left; [post k] is the outcome of the [k]-th
    request for the resource.  The result is [Some True], [Some False] or
    [None] when an exception leaves the method, with the number of requests
    sent. *)
Fixpoint push_from (post : nat -> PostOutcome) (backoff_seconds : Z)
    (attempt remaining : nat) : option bool * nat :=
  match remaining with
  | O => (Some false, O)
  | S fewer =>
      match post attempt with
      | OtherException => (None, 1%nat)
      | outcome =>
          if is_accepted outcome then (Some true, 1%nat)
          else if sleep_raises backoff_seconds then (None, 1%nat)
          else let '(result, sent) := push_from post backoff_seconds (S attempt) fewer in
               (result, S sent)
      end
  end.

(** What a call of [push] leaves: what it returned ([None] when an
    exception left it), the requests it sent for the resource and for a
    token, and the cache [_token_info]. *)
Record PushResult : Set := mkPush {
  returned : option bool;
  posts : nat;
  token_posts : nat;
  token_info : option TokenInfo
}.

(** [SAPConnector.push]: the headers, then
    [for attempt in range(1, max_attempts + 1)]. *)
Definition push (now : Z) (auth : SAPAuthConfig) (info : option TokenInfo)
    (response : TokenResponse) (post : nat -> PostOutcome)
    (max_attempts backoff_seconds : Z) : PushResult :=
  match _build_headers now auth info response with
  | (Some _, sent, info') =>
      let '(result, n) := push_from post backoff_seconds 1 (Z.to_nat max_attempts) in
      mkPush result n sent info'
  | (None, sent, info') => mkPush None 0 sent info'
  end.

(** ** Values without text *)




(** * Properties *)

(** ** Facts about the SQL helpers *)

Section SqlFacts.

Implicit Types (rows : list Row) (cond : Row -> bool) (r : Row).

Lemma elem_of_sql_filter cond rows r :
  r ∈ List.filter cond rows <-> r ∈ rows /\ cond r = true.
Proof. rewrite !list_elem_of_In. apply filter_In. Qed.

Lemma sql_rowcount_nonneg cond rows : 0 <= sql_rowcount cond rows.
Proof. unfold sql_rowcount. lia. Qed.

Lemma sql_rowcount_cons cond r rows :
  sql_rowcount cond (r :: rows)
  = (if cond r then 1 else 0) + sql_rowcount cond rows.
Proof. unfold sql_rowcount. simpl. destruct (cond r); simpl; lia. Qed.

Lemma sql_update_length cond f rows :
  length (sql_update cond f rows) = length rows.
Proof. unfold sql_update. by rewrite length_map. Qed.

Lemma elem_of_sql_update cond f rows r' :
  r' ∈ sql_update cond f rows
  <-> exists r, r ∈ rows /\ r' = (if cond r then f r else r).
Proof.
  unfold sql_update. rewrite list_elem_of_fmap.
  split; intros (r & H1 & H2); exists r; auto.
Qed.

Lemma elem_of_sql_delete cond rows r :
  r ∈ sql_delete cond rows <-> r ∈ rows /\ cond r = false.
Proof.
  unfold sql_delete. rewrite elem_of_sql_filter.
  destruct (cond r); simpl; intuition congruence.
Qed.

(** An UPDATE by id, read back by id, when the assignment keeps the id. *)
Lemma find_sql_update message_id f rows :
  (forall r, r_id (f r) = r_id r) ->
  List.find (has_id message_id) (sql_update (has_id message_id) f rows)
  = f <$> List.find (has_id message_id) rows.
Proof.
  intros Hid. induction rows as [|r rows IH]; simpl; [done|].
  destruct (has_id message_id r) eqn:Hr; simpl.
  - unfold has_id in *. by rewrite Hid, Hr.
  - by rewrite Hr.
Qed.

Lemma find_sql_update_other message_id other f rows :
  (forall r, r_id (f r) = r_id r) ->
  other <> message_id ->
  List.find (has_id other) (sql_update (has_id message_id) f rows)
  = List.find (has_id other) rows.
Proof.
  intros Hid Hne. induction rows as [|r rows IH]; simpl; [done|].
  destruct (has_id message_id r) eqn:Hr; simpl.
  - unfold has_id in *. rewrite Hid.
    replace (r_id r =? other) with false by lia. done.
  - destruct (has_id other r); [done|apply IH].
Qed.

Lemma sql_delete_limit_sublist n cond rows :
  sql_delete_limit n cond rows `sublist_of` rows.
Proof.
  revert n. induction rows as [|r rows IH]; intros [|n]; simpl; try done.
  destruct (cond r).
  - by apply sublist_cons.
  - by apply sublist_skip.
Qed.


Lemma sql_delete_limit_keeps n cond rows :
  List.filter (fun r => negb (cond r)) (sql_delete_limit n cond rows)
  = List.filter (fun r => negb (cond r)) rows.
Proof.
  revert n. induction rows as [|r rows IH]; intros [|n]; simpl; try done.
  destruct (cond r) eqn:Hr; simpl; [apply IH|].
  rewrite Hr. simpl. f_equal. apply IH.
Qed.

End SqlFacts.

(** ** Selecting the first rows of an ordered query *)

Section OrderedSelection.

Context (R : relation Row) `{!RelDecision R, !Total R, !Transitive R}.

Implicit Types (rows : list Row) (cond : Row -> bool).


End OrderedSelection.


(** ** Leasing a batch *)

Lemma column_filter_spec want have :
  column_filter want have = true <-> passes_filter want have.
Proof.
  unfold column_filter, passes_filter. destruct want as [s|]; [|done].
  destruct (String.eqb_spec s ""); [intuition congruence|].
  destruct (String.eqb_spec have s); intuition congruence.
Qed.

Lemma has_status_spec s r : has_status s r = true <-> r_status r = s.
Proof. unfold has_status, status_eqb. by rewrite bool_decide_eq_true. Qed.

Lemma is_leasable_spec now source destination r :
  is_leasable now source destination r = true <-> leasable now source destination r.
Proof.
  unfold is_leasable, leasable.
  rewrite !andb_true_iff, has_status_spec, !column_filter_spec, !Z.ltb_lt.
  tauto.
Qed.


Lemma id_in_spec ids r : id_in ids r = true <-> r_id r ∈ ids.
Proof. unfold id_in. by rewrite bool_decide_eq_true. Qed.

Lemma with_messages_same b : with_messages (messages b) b = b.
Proof. by destruct b. Qed.

Lemma sql_update_miss cond f rows :
  Forall (fun r => cond r = false) rows -> sql_update cond f rows = rows.
Proof.
  unfold sql_update. induction rows as [|r rows IH]; intros Hmiss; simpl; [done|].
  apply Forall_cons in Hmiss as [-> Hmiss]. by rewrite IH.
Qed.



(** What the SELECT of a lease finds: rows of the table that the WHERE
    clause accepts, in the order of the ORDER BY clause; a row that the
    clause accepts is left out only under a limit that is not negative and
    that the rows before it have used up. *)
Lemma select_pending_sorted now limit source destination rows :
  select_pending now limit source destination rows
  ⊆ merge_sort lease_order (List.filter (is_leasable now source destination) rows).
Proof.
  unfold select_pending. destruct (is_int64 limit); [|apply list_subseteq_nil].
  unfold sql_limit. destruct (limit <? 0); [done|apply subseteq_take].
Qed.





(** ** The pending count *)

Lemma is_live_count rows :
  sql_rowcount is_live rows = count_status PENDING rows + count_status PROCESSING rows.
Proof.
  unfold count_status. induction rows as [|r rows IH]; [done|].
  rewrite !sql_rowcount_cons, IH. unfold is_live, has_status, status_eqb.
  destruct (r_status r); simpl; lia.
Qed.

(** C10.  [get_pending_count] counts the rows that are pending together
    with those that are processing; [add_message] runs the overflow policy
    exactly when this sum reaches [max_size]; and [get_statistics] reports
    the same sum as [buffer_size] and divides it by [max_size] for
    [utilization_percent]. *)
Theorem C10_pending_count_combined (now : Z) (m : BufferedMessage) (b : PersistentBuffer) :
  let live := count_status PENDING (messages b) + count_status PROCESSING (messages b) in
  get_pending_count b = live
  /\ (live < max_size b -> add_message now m b = insert_message now m b)
  /\ (max_size b <= live ->
        add_message now m b = insert_message now m (_handle_buffer_overflow now b))
  /\ (max_size b <> 0 ->
        exists s, get_statistics b = Some s
                  /\ s_buffer_size s = live
                  /\ s_max_size s = max_size b
                  /\ s_utilization_percent s
                     = (inject_Z live / inject_Z (max_size b) * 100)%Q).
Proof.
  intros live.
  assert (Hcount : get_pending_count b = live) by apply is_live_count.
  split; [done|]. unfold add_message, get_statistics. rewrite Hcount.
  split; [|split].
  - intros Hlt. by replace (max_size b <=? live) with false by lia.
  - intros Hge. by replace (max_size b <=? live) with true by lia.
  - intros Hmax. replace (max_size b =? 0) with false by lia.
    eexists. split; [done|]. simpl. done.
Qed.

Lemma C10_pending_count_combined_witness :
  get_pending_count Sample.full = 2
  /\ (exists s, get_statistics Sample.full = Some s /\ s_buffer_size s = 2).
Proof.
  destruct (C10_pending_count_combined 200 (Sample.message "Float" (PInt 1) NORMAL)
              Sample.full) as (Hcount & _ & _ & Hstats).
  split; [exact Hcount|].
  destruct Hstats as (s & Hs & Hsize & _); [vm_compute; discriminate|].
  exists s. split; [exact Hs|exact Hsize].
Defined.

(** ** Failing a message *)

Lemma set_failure_id s n err r : r_id (set_failure s n err r) = r_id r.
Proof. done. Qed.

Lemma set_status_id s r : r_id (set_status s r) = r_id r.
Proof. done. Qed.

Lemma set_completed_id now r : r_id (set_completed now r) = r_id r.
Proof. done. Qed.

Lemma set_failure_retries s n err r : r_retry_count (set_failure s n err r) = n.
Proof. done. Qed.

Lemma set_failure_max s n err r : r_max_retries (set_failure s n err r) = r_max_retries r.
Proof. done. Qed.

Lemma set_failure_status s n err r : r_status (set_failure s n err r) = s.
Proof. done. Qed.

Lemma dead_letters_app message_id b f :
  List.filter (fun f => f_original_id f =? message_id) (failed_messages b ++ [f])
  = dead_letters message_id b
    ++ (if f_original_id f =? message_id then [f] else []).
Proof. unfold dead_letters. rewrite List.filter_app. simpl. by destruct (_ =? _). Qed.

(** One [mark_failed] call on a stored message: the row gets one more
    retry, the error text and the status [fail_status]; a dead letter is
    appended exactly when that status is [FAILED]. *)
Lemma mark_failed_found now message_id err b r :
  lookup_message message_id b = Some r ->
  (mark_failed now message_id err b).2 = true
  /\ lookup_message message_id (mark_failed now message_id err b).1
     = Some (set_failure (fail_status r) (r_retry_count r + 1) err r)
  /\ dead_letters message_id (mark_failed now message_id err b).1
     = dead_letters message_id b
       ++ (if r_max_retries r <=? r_retry_count r + 1
           then [dead_letter now (next_rowid (failed_seq b) (f_id <$> failed_messages b))
                             message_id (r_retry_count r + 1) err r]
           else []).
Proof.
  unfold lookup_message, mark_failed, fail_status. intros Hr. rewrite Hr.
  destruct (r_max_retries r <=? r_retry_count r + 1); simpl.
  - rewrite find_sql_update, Hr by apply set_failure_id.
    split; [done|]. split; [done|].
    unfold dead_letters at 1. simpl. rewrite dead_letters_app. simpl.
    by rewrite Z.eqb_refl.
  - rewrite find_sql_update, Hr by apply set_failure_id.
    split; [done|]. split; [done|].
    by rewrite app_nil_r.
Qed.

Lemma mark_failed_seq_cons call calls message_id b :
  mark_failed_seq (call :: calls) message_id b
  = mark_failed_seq calls message_id (mark_failed call.1 message_id call.2 b).1.
Proof. done. Qed.

(** A run of [mark_failed] calls: retries add up, and each call that
    finds the retries exhausted appends one dead letter. *)
Lemma mark_failed_seq_found calls : forall message_id b r,
  lookup_message message_id b = Some r ->
  let n := Z.of_nat (length calls) in
  let b' := mark_failed_seq calls message_id b in
  (exists r',
     lookup_message message_id b' = Some r'
     /\ r_retry_count r' = r_retry_count r + n
     /\ r_max_retries r' = r_max_retries r
     /\ (0 < n -> r_status r'
                  = if r_max_retries r <=? r_retry_count r + n then FAILED else PENDING))
  /\ Z.of_nat (length (dead_letters message_id b'))
     = Z.of_nat (length (dead_letters message_id b))
       + Z.max 0 (Z.min n (n - (r_max_retries r - r_retry_count r) + 1)).
Proof.
  induction calls as [|call calls IH]; intros message_id b r Hr n b'; subst n b'.
  - change (mark_failed_seq [] message_id b) with b.
    change (Z.of_nat (length (@nil (Z * option string)))) with 0.
    split; [|lia]. exists r. repeat split; try done; lia.
  - rewrite mark_failed_seq_cons, length_cons, Nat2Z.inj_succ.
    destruct (mark_failed_found call.1 message_id call.2 b r Hr) as (_ & Hr1 & Hdead).
    destruct (IH message_id _ _ Hr1) as ((r' & Hr' & Hcount & Hmax & Hstatus) & Hlen).
    rewrite set_failure_retries in Hcount, Hstatus, Hlen.
    rewrite set_failure_max in Hmax, Hstatus, Hlen.
    split.
    + exists r'. split; [done|]. split; [lia|]. split; [done|]. intros _.
      destruct calls as [|c calls].
      * change (mark_failed_seq [] message_id ?x) with x in Hr'.
        rewrite Hr1 in Hr'. injection Hr' as <-.
        rewrite set_failure_status. unfold fail_status.
        by replace (r_retry_count r + Z.succ (Z.of_nat (length (@nil (Z * option string)))))
          with (r_retry_count r + 1) by (simpl; lia).
      * rewrite Hstatus by (rewrite length_cons; lia).
        by replace (r_retry_count r + 1 + Z.of_nat (length (c :: calls)))
          with (r_retry_count r + Z.succ (Z.of_nat (length (c :: calls)))) by lia.
    + rewrite Hlen, Hdead, length_app.
      destruct (r_max_retries r <=? r_retry_count r + 1) eqn:Hex; simpl length; lia.
Qed.

(** C2 (amended).  For a stored message with [retry_count = 0] and
    [max_retries = 3]: after the first and after the second [fail] call
    it is pending and has no new dead letter; the third [fail] call makes
    it failed and writes one dead letter, with [retry_count = 3] in both
    tables. *)
Theorem C2_third_fail_call_is_final (b : PersistentBuffer) (message_id : Z) (r : Row)
    (c1 c2 c3 : Z * option string) :
  lookup_message message_id b = Some r ->
  r_retry_count r = 0 ->
  r_max_retries r = 3 ->
  status_of message_id (mark_failed_seq [c1] message_id b) = Some PENDING
  /\ status_of message_id (mark_failed_seq [c1; c2] message_id b) = Some PENDING
  /\ dead_letters message_id (mark_failed_seq [c1; c2] message_id b)
     = dead_letters message_id b
  /\ let b3 := mark_failed_seq [c1; c2; c3] message_id b in
     status_of message_id b3 = Some FAILED
     /\ r_retry_count <$> lookup_message message_id b3 = Some 3
     /\ exists d, dead_letters message_id b3 = dead_letters message_id b ++ [d]
                  /\ f_original_id d = message_id
                  /\ f_retry_count d = 3.
Proof.
  intros Hr Hcount Hmax.
  unfold mark_failed_seq, status_of. cbn [foldl].
  destruct (mark_failed_found c1.1 message_id c1.2 b r Hr) as (_ & Hr1 & Hd1).
  set (b1 := (mark_failed c1.1 message_id c1.2 b).1) in *.
  destruct (mark_failed_found c2.1 message_id c2.2 b1 _ Hr1) as (_ & Hr2 & Hd2).
  set (b2 := (mark_failed c2.1 message_id c2.2 b1).1) in *.
  destruct (mark_failed_found c3.1 message_id c3.2 b2 _ Hr2) as (_ & Hr3 & Hd3).
  set (b3 := (mark_failed c3.1 message_id c3.2 b2).1) in *.
  rewrite !set_failure_retries, !set_failure_max, Hcount, Hmax in *.
  unfold fail_status in *.
  rewrite !set_failure_retries, !set_failure_max, Hcount, Hmax in *.
  simpl in Hd1, Hd2, Hd3, Hr1, Hr2, Hr3.
  rewrite Hr1, Hr2, Hr3. rewrite app_nil_r in Hd1. rewrite Hd1, app_nil_r in Hd2.
  rewrite Hd2 in Hd3.
  repeat split; try done.
  eexists. split; [exact Hd3|]. done.
Qed.

Lemma C2_third_fail_call_is_final_witness :
  status_of 1 (mark_failed_seq [(201, None); (202, None); (203, None)] 1 Sample.one_pending)
  = Some FAILED.
Proof.
  destruct (C2_third_fail_call_is_final Sample.one_pending 1
              (Sample.row 1 PENDING 1 100 3700) (201, None) (202, None) (203, None))
    as (_ & _ & _ & Hfailed & _); [reflexivity|reflexivity|reflexivity|].
  exact Hfailed.
Defined.

(** The scenario as worded fails on the code: the third [fail] call
    already leaves the message failed. *)
Lemma C2_counterexample :
  ~ four_fail_calls_as_stated Sample.one_pending 1
      (201, Some "timeout") (202, Some "timeout") (203, Some "timeout")
      (204, Some "timeout").
Proof. intros (_ & _ & Hthird & _). vm_compute in Hthird. discriminate. Qed.

(** C6 (amended).  After [n] calls of [fail] on a stored message that had
    [retry_count = r0], the dead letters of the message have grown by the
    number of calls [k <= n] with [r0 + k >= max_retries]: none while the
    message goes back to pending, one at the call that makes it failed,
    and one more at every later call; after the last call the message is
    failed when [r0 + n >= max_retries] and pending otherwise. *)
Theorem C6_dead_letter_per_exhausted_fail (calls : list (Z * option string))
    (message_id : Z) (b : PersistentBuffer) (r : Row) :
  lookup_message message_id b = Some r ->
  let n := Z.of_nat (length calls) in
  let b' := mark_failed_seq calls message_id b in
  Z.of_nat (length (dead_letters message_id b'))
  = Z.of_nat (length (dead_letters message_id b))
    + Z.max 0 (Z.min n (n - (r_max_retries r - r_retry_count r) + 1))
  /\ (0 < n ->
      status_of message_id b'
      = Some (if r_max_retries r <=? r_retry_count r + n then FAILED else PENDING)).
Proof.
  intros Hr n b'.
  destruct (mark_failed_seq_found calls message_id b r Hr)
    as ((r' & Hr' & _ & _ & Hstatus) & Hlen).
  split; [exact Hlen|]. intros Hn. unfold status_of. subst b'.
  rewrite Hr'. simpl. f_equal. by apply Hstatus.
Qed.

Lemma C6_dead_letter_per_exhausted_fail_witness :
  length (dead_letters 1
            (mark_failed_seq [(201, None); (202, None); (203, None); (204, None)] 1
                             Sample.one_pending))
  = 2%nat.
Proof.
  destruct (C6_dead_letter_per_exhausted_fail
              [(201, None); (202, None); (203, None); (204, None)] 1
              Sample.one_pending (Sample.row 1 PENDING 1 100 3700))
    as (Hlen & _); [reflexivity|].
  apply Nat2Z.inj. exact Hlen.
Defined.

(** Four [fail] calls leave the message failed with two dead letters. *)
Lemma C6_counterexample :
  ~ one_dead_letter_when_failed
      [(201, Some "timeout"); (202, Some "timeout"); (203, Some "timeout");
       (204, Some "timeout")] 1 Sample.one_pending.
Proof. intros H. specialize (H eq_refl). vm_compute in H. discriminate. Qed.

Lemma next_rowid_above seq ids : seq < next_rowid seq ids.
Proof.
  unfold next_rowid. induction ids as [|i ids IH]; simpl; lia.
Qed.

Lemma new_row_id now ttl message_id m row :
  new_row now ttl message_id m = Some row -> r_id row = message_id.
Proof.
  unfold new_row.
  destruct (m_source m), (m_destination m), (m_topic_or_node m), (m_data_type m);
    simpl; try discriminate.
  by intros [= <-].
Qed.

Lemma overflow_seq now b :
  messages_seq (_handle_buffer_overflow now b) = messages_seq b.
Proof.
  unfold _handle_buffer_overflow.
  by destruct (_ <? 50); [destruct (delete_limit b)|].
Qed.

(** ** The key constraints are an invariant *)

Lemma sql_delete_sublist cond rows : sql_delete cond rows `sublist_of` rows.
Proof.
  unfold sql_delete. induction rows as [|r rows IH]; simpl; [done|].
  destruct (cond r); simpl; [by apply sublist_cons|by apply sublist_skip].
Qed.

Lemma overflow_sublist now b :
  messages (_handle_buffer_overflow now b) `sublist_of` messages b.
Proof.
  unfold _handle_buffer_overflow.
  destruct (_ <? 50); [destruct (delete_limit b)|]; simpl;
    try apply sql_delete_sublist.
  etrans; [apply sql_delete_limit_sublist|apply sql_delete_sublist].
Qed.

Lemma rows_wf_sublist seq rows rows' :
  rows' `sublist_of` rows -> rows_wf seq rows -> rows_wf seq rows'.
Proof.
  intros Hsub [Hnd Hseq]. split.
  - eapply sublist_NoDup; [exact Hnd|]. by apply fmap_sublist.
  - rewrite Forall_forall in *. intros r Hr. apply Hseq.
    eapply sublist_subseteq; eauto.
Qed.

Lemma rows_wf_update seq cond f rows :
  (forall r, r_id (f r) = r_id r) ->
  rows_wf seq rows -> rows_wf seq (sql_update cond f rows).
Proof.
  intros Hid [Hnd Hseq].
  assert (Hids : r_id <$> sql_update cond f rows = r_id <$> rows).
  { clear Hnd Hseq. unfold sql_update.
    induction rows as [|r rows IH]; [done|].
    rewrite !fmap_cons. f_equal; [by destruct (cond r); rewrite ?Hid|exact IH]. }
  split; [by rewrite Hids|].
  rewrite Forall_forall in *. intros r' Hr'.
  apply elem_of_sql_update in Hr' as (r & Hr & ->).
  destruct (cond r); rewrite ?Hid; by apply Hseq.
Qed.

Lemma rows_wf_insert seq rows row :
  rows_wf seq rows ->
  r_id row = next_rowid seq (r_id <$> rows) ->
  rows_wf (r_id row) (rows ++ [row]).
Proof.
  intros [Hnd Hseq] Hid.
  pose proof (next_rowid_above seq (r_id <$> rows)) as Habove.
  rewrite Forall_forall in Hseq. split.
  - rewrite fmap_app. apply NoDup_app. split; [done|]. split; [|apply NoDup_singleton].
    intros i Hi Hnew. apply list_elem_of_fmap in Hi as (r & -> & Hr).
    simpl in Hnew. apply list_elem_of_singleton in Hnew.
    specialize (Hseq r Hr). lia.
  - apply Forall_app. split; [|by repeat constructor].
    apply Forall_forall. intros r Hr. specialize (Hseq r Hr). lia.
Qed.

(** Every operation of the buffer keeps [id] a primary key below the
    AUTOINCREMENT counter; the empty table satisfies both. *)
Lemma buffer_wf_invariant (now limit message_id : Z) (source destination err : option string)
    (m : BufferedMessage) (b : PersistentBuffer) :
  buffer_wf b ->
  buffer_wf (add_message now m b).1
  /\ buffer_wf (get_pending_messages now limit source destination b).1
  /\ buffer_wf (get_next_message now source destination b).1
  /\ buffer_wf (mark_completed now message_id b).1
  /\ buffer_wf (mark_failed now message_id err b).1
  /\ buffer_wf (_cleanup now b)
  /\ buffer_wf (reset_processing_messages b).
Proof.
  unfold buffer_wf. intros Hwf.
  split; [|split; [|split; [|split; [|split; [|split]]]]].
  - unfold add_message, insert_message.
    set (b1 := if max_size b <=? get_pending_count b
               then _handle_buffer_overflow now b else b).
    assert (Hb1 : rows_wf (messages_seq b1) (messages b1)).
    { subst b1. destruct (_ <=? _); [|done].
      rewrite overflow_seq. eapply rows_wf_sublist; [apply overflow_sublist|done]. }
    destruct (new_row now (ttl_minutes b1) _ m) as [row|] eqn:Hrow; [|done].
    simpl. rewrite <- (new_row_id _ _ _ _ _ Hrow).
    apply (rows_wf_insert (messages_seq b1)); [done|]. by apply new_row_id in Hrow.
  - simpl. by apply rows_wf_update.
  - unfold get_next_message. destruct (select_pending _ _ _ _ _); [done|].
    simpl. by apply rows_wf_update.
  - unfold mark_completed. destruct (0 <? _); simpl; by apply rows_wf_update.
  - unfold mark_failed. destruct (List.find _ _) as [row|]; [|done].
    destruct (_ <=? _); simpl; by apply rows_wf_update.
  - simpl. eapply rows_wf_sublist; [apply sql_delete_sublist|].
    eapply rows_wf_sublist; [apply sql_delete_sublist|]. by apply rows_wf_update.
  - simpl. by apply rows_wf_update.
Qed.


(** ** Terminal statuses *)

Lemma lookup_message_elem message_id b r :
  lookup_message message_id b = Some r -> r ∈ messages b /\ r_id r = message_id.
Proof.
  unfold lookup_message. intros H. apply find_some in H as [Hin Hid].
  split; [by apply list_elem_of_In|]. unfold has_id in Hid. lia.
Qed.

Lemma unique_by_id (rows : list Row) (r1 r2 : Row) :
  NoDup (r_id <$> rows) -> r1 ∈ rows -> r2 ∈ rows -> r_id r1 = r_id r2 -> r1 = r2.
Proof.
  induction rows as [|r rows IH]; intros Hnd H1 H2 Hid.
  - by apply elem_of_nil in H1.
  - rewrite fmap_cons in Hnd. apply NoDup_cons in Hnd as [Hnew Hnd].
    apply elem_of_cons in H1 as [->|H1]; apply elem_of_cons in H2 as [->|H2].
    + done.
    + exfalso. apply Hnew. rewrite Hid. apply list_elem_of_fmap. by exists r2.
    + exfalso. apply Hnew. rewrite <- Hid. apply list_elem_of_fmap. by exists r1.
    + by apply IH.
Qed.

(** A terminal status is kept by an operation whose rows are rows of the
    table, unchanged when terminal, or rows with a fresh id. *)
Lemma status_kept_by_rows (op : PersistentBuffer -> PersistentBuffer) b :
  NoDup (r_id <$> messages b) ->
  (forall r', r' ∈ messages (op b) ->
     (exists r0, r0 ∈ messages b /\ r_id r0 = r_id r'
                 /\ (is_terminal (r_status r0) -> r' = r0))
     \/ (forall r0, r0 ∈ messages b -> r_id r0 <> r_id r')) ->
  status_kept op b.
Proof.
  intros Hnd Hrows message_id r r' Hr Hterm Hr'.
  apply lookup_message_elem in Hr as [Hin Hid].
  apply lookup_message_elem in Hr' as [Hin' Hid'].
  destruct (Hrows r' Hin') as [(r0 & Hin0 & Hid0 & Hsame)|Hfresh].
  - assert (r0 = r) as -> by (eapply unique_by_id; eauto; lia).
    by rewrite (Hsame Hterm).
  - exfalso. apply (Hfresh r Hin). lia.
Qed.

Lemma terminal_not_live r : is_terminal (r_status r) -> is_live r = false.
Proof.
  unfold is_terminal, is_live, has_status, status_eqb.
  intros [Hs | [Hs | Hs]]; by rewrite Hs.
Qed.

Lemma sql_limit_subseteq {A : Type} (n : Z) (l : list A) : sql_limit n l ⊆ l.
Proof. unfold sql_limit. destruct (n <? 0); [done|apply subseteq_take]. Qed.

Lemma select_pending_elem now limit source destination rows r :
  r ∈ select_pending now limit source destination rows ->
  r ∈ rows /\ r_status r = PENDING.
Proof.
  intros H. apply select_pending_sorted in H.
  rewrite merge_sort_Permutation in H. apply elem_of_sql_filter in H as [Hin Hc].
  split; [done|]. by apply is_leasable_spec in Hc as [? _].
Qed.

Lemma pending_not_terminal r : r_status r = PENDING -> ~ is_terminal (r_status r).
Proof. intros ->. unfold is_terminal. intros [|[|]]; discriminate. Qed.

Lemma status_kept_lease now limit source destination b :
  NoDup (r_id <$> messages b) ->
  status_kept (fun b => (get_pending_messages now limit source destination b).1) b.
Proof.
  intros Hnd. apply status_kept_by_rows; [done|]. intros r' Hr'. left.
  simpl in Hr'. apply elem_of_sql_update in Hr' as (r0 & Hin0 & ->).
  exists r0. split; [done|]. split; [by destruct (id_in _ r0)|]. intros Hterm.
  destruct (id_in _ r0) eqn:Hsel; [exfalso|done].
  apply id_in_spec, list_elem_of_fmap in Hsel as (rs & Hid & Hrs).
  apply select_pending_elem in Hrs as [Hrs Hpending].
  assert (rs = r0) as -> by (eapply unique_by_id; eauto).
  by apply pending_not_terminal in Hpending.
Qed.

Lemma status_kept_next now source destination b :
  NoDup (r_id <$> messages b) ->
  status_kept (fun b => (get_next_message now source destination b).1) b.
Proof.
  intros Hnd. apply status_kept_by_rows; [done|]. intros r' Hr'. left.
  unfold get_next_message in Hr'.
  destruct (select_pending now 1 source destination (messages b)) as [|row rest] eqn:Hsel.
  { exists r'. by repeat split. }
  simpl in Hr'. apply elem_of_sql_update in Hr' as (r0 & Hin0 & ->).
  exists r0. split; [done|]. split; [by destruct (has_id _ r0)|]. intros Hterm.
  destruct (has_id _ r0) eqn:Hhit; [exfalso|done].
  assert (Hrow : row ∈ select_pending now 1 source destination (messages b))
    by (rewrite Hsel; apply elem_of_cons; by left).
  apply select_pending_elem in Hrow as [Hrow Hpending].
  assert (row = r0) as -> by (unfold has_id in Hhit; eapply unique_by_id; eauto; lia).
  by apply pending_not_terminal in Hpending.
Qed.

Lemma status_kept_reset b :
  NoDup (r_id <$> messages b) -> status_kept reset_processing_messages b.
Proof.
  intros Hnd. apply status_kept_by_rows; [done|]. intros r' Hr'. left.
  simpl in Hr'. apply elem_of_sql_update in Hr' as (r0 & Hin0 & ->).
  exists r0. split; [done|]. split; [by destruct (has_status _ r0)|]. intros Hterm.
  destruct (has_status PROCESSING r0) eqn:Hp; [exfalso|done].
  apply has_status_spec in Hp. unfold is_terminal in Hterm. rewrite Hp in Hterm.
  destruct Hterm as [|[|]]; discriminate.
Qed.

Lemma status_kept_cleanup now b :
  NoDup (r_id <$> messages b) -> status_kept (_cleanup now) b.
Proof.
  intros Hnd. apply status_kept_by_rows; [done|]. intros r' Hr'. left.
  simpl in Hr'. apply elem_of_sql_delete in Hr' as [Hr' _].
  apply elem_of_sql_delete in Hr' as [Hr' _].
  apply elem_of_sql_update in Hr' as (r0 & Hin0 & ->).
  exists r0. split; [done|]. split; [by destruct (is_overdue _ r0)|]. intros Hterm.
  unfold is_overdue. rewrite (terminal_not_live _ Hterm). by rewrite andb_false_r.
Qed.

Lemma overflow_subseteq now b : messages (_handle_buffer_overflow now b) ⊆ messages b.
Proof.
  assert (Hdel : forall cond, sql_delete cond (messages b) ⊆ messages b).
  { intros cond r Hr. by apply elem_of_sql_delete in Hr as [? _]. }
  unfold _handle_buffer_overflow.
  destruct (_ <? 50); [destruct (delete_limit b)|]; simpl; try apply Hdel.
  etrans; [|apply Hdel]. apply sublist_subseteq, sql_delete_limit_sublist.
Qed.

Lemma status_kept_add now m b :
  buffer_wf b -> status_kept (fun b => (add_message now m b).1) b.
Proof.
  intros [Hnd Hseq]. apply status_kept_by_rows; [done|]. intros r' Hr'.
  unfold add_message, insert_message in Hr'.
  set (b1 := if max_size b <=? get_pending_count b
             then _handle_buffer_overflow now b else b) in *.
  assert (Hsub : messages b1 ⊆ messages b).
  { subst b1. destruct (_ <=? _); [apply overflow_subseteq|done]. }
  assert (Hb1 : messages_seq b1 = messages_seq b).
  { subst b1. destruct (_ <=? _); [apply overflow_seq|done]. }
  destruct (new_row now (ttl_minutes b1) _ m) as [row|] eqn:Hrow; simpl in Hr'.
  - apply elem_of_app in Hr' as [Hold|Hnew].
    + left. exists r'. split; [by apply Hsub|]. done.
    + right. apply list_elem_of_singleton in Hnew as ->.
      intros r0 Hin0. rewrite (new_row_id _ _ _ _ _ Hrow).
      rewrite Forall_forall in Hseq. specialize (Hseq r0 Hin0).
      pose proof (next_rowid_above (messages_seq b1) (r_id <$> messages b1)). lia.
  - left. exists r'. split; [by apply Hsub|]. done.
Qed.

(** [mark_completed] on a stored message, whatever its status. *)
Lemma mark_completed_found now message_id b r :
  lookup_message message_id b = Some r ->
  (mark_completed now message_id b).2 = true
  /\ lookup_message message_id (mark_completed now message_id b).1
     = Some (set_completed now r).
Proof.
  unfold lookup_message, mark_completed. intros Hr.
  assert (Hcount : (0 <? sql_rowcount (has_id message_id) (messages b)) = true).
  { unfold sql_rowcount. apply Z.ltb_lt.
    apply find_some in Hr as [Hin Hid].
    assert (Hf : In r (List.filter (has_id message_id) (messages b)))
      by (apply filter_In; done).
    destruct (List.filter _ _); [done|simpl; lia]. }
  rewrite Hcount. simpl. split; [done|].
  by rewrite find_sql_update, Hr by apply set_completed_id.
Qed.

(** C5 (amended).  On a table that satisfies its key constraints, the
    lease of a batch or of one message, the startup reset, the sweep and
    the enqueue keep the status of every message that is completed, failed
    or expired (the sweep and the overflow policy may delete such a row).
    [complete] and [fail] carry no guard on the status: [complete] sets any
    stored message to completed with [processed_at = now], and [fail]
    adds one retry to any stored message and sets it to failed when the
    retries are exhausted and to pending otherwise. *)
Theorem C5_terminal_status_kept_except_complete_and_fail
    (now limit message_id : Z) (source destination err : option string)
    (m : BufferedMessage) (b : PersistentBuffer) :
  buffer_wf b ->
  status_kept (fun b => (get_pending_messages now limit source destination b).1) b
  /\ status_kept (fun b => (get_next_message now source destination b).1) b
  /\ status_kept reset_processing_messages b
  /\ status_kept (_cleanup now) b
  /\ status_kept (fun b => (add_message now m b).1) b
  /\ (forall r, lookup_message message_id b = Some r ->
        (mark_completed now message_id b).2 = true
        /\ lookup_message message_id (mark_completed now message_id b).1
           = Some (set_completed now r))
  /\ (forall r, lookup_message message_id b = Some r ->
        (mark_failed now message_id err b).2 = true
        /\ lookup_message message_id (mark_failed now message_id err b).1
           = Some (set_failure (fail_status r) (r_retry_count r + 1) err r)).
Proof.
  intros Hwf. pose proof Hwf as [Hnd _].
  split; [by apply status_kept_lease|].
  split; [by apply status_kept_next|].
  split; [by apply status_kept_reset|].
  split; [by apply status_kept_cleanup|].
  split; [by apply status_kept_add|].
  split.
  - intros r Hr. by apply mark_completed_found.
  - intros r Hr. destruct (mark_failed_found now message_id err b r Hr) as (? & ? & _).
    done.
Qed.

Lemma sample_one_failed_wf : buffer_wf Sample.one_failed.
Proof.
  split.
  - apply (bool_decide_unpack _). vm_compute. exact I.
  - repeat constructor. vm_compute. discriminate.
Qed.

Lemma C5_terminal_status_kept_except_complete_and_fail_witness :
  buffer_wf Sample.one_failed
  /\ status_kept (_cleanup 5000) Sample.one_failed
  /\ status_of 1 (mark_completed 5000 1 Sample.one_failed).1 = Some COMPLETED.
Proof.
  split; [exact sample_one_failed_wf|].
  destruct (C5_terminal_status_kept_except_complete_and_fail
              5000 10 1 None None None (Sample.message "Float" (PInt 1) NORMAL)
              Sample.one_failed sample_one_failed_wf)
    as (_ & _ & _ & Hsweep & _ & Hcomplete & _).
  split; [exact Hsweep|].
  unfold status_of.
  destruct (Hcomplete _ eq_refl) as [_ ->]. reflexivity.
Defined.

(** [complete] turns a failed message into a completed one, and [fail]
    turns a completed message back into a pending one. *)
Lemma C5_counterexample :
  ~ status_kept (fun b => (mark_completed 5000 1 b).1) Sample.one_failed
  /\ ~ status_kept (fun b => (mark_failed 5000 1 (Some "late") b).1) Sample.one_completed.
Proof.
  split; intros H.
  - specialize (H 1 _ _ eq_refl (or_intror (or_introl eq_refl)) eq_refl).
    vm_compute in H. discriminate.
  - specialize (H 1 _ _ eq_refl (or_introl eq_refl) eq_refl).
    vm_compute in H. discriminate.
Qed.

(** ** The sweep *)

Lemma cleanup_row now r rows :
  sql_delete (is_old_expired now)
    (sql_delete (is_old_completed now)
       (sql_update (is_overdue now) (set_status EXPIRED) (r :: rows)))
  = option_list (sweep_row now r)
    ++ sql_delete (is_old_expired now)
         (sql_delete (is_old_completed now)
            (sql_update (is_overdue now) (set_status EXPIRED) rows)).
Proof.
  unfold sql_delete, sql_update, sweep_row. simpl.
  unfold is_overdue, is_past_expiry, is_old_completed, is_old_expired, is_live,
    has_status, status_eqb.
  destruct (r_expire_at r <? now) eqn:Hpast, (r_status r) eqn:Hs; simpl;
    rewrite ?Hs; simpl;
    repeat (match goal with
            | |- context [r_processed_at r] => destruct (r_processed_at r); simpl
            | |- context [?a <? ?b] => destruct (a <? b); simpl
            end);
    rewrite ?Hs; simpl; done.
Qed.

(** C7 (amended).  One sweep at instant [now] treats every row as
    [sweep_row] says: a pending or processing row with [expire_at < now]
    becomes expired, and is counted in [messages_expired]; completed rows
    processed more than 24 hours ago and expired rows whose expiry is more
    than 7 days old are deleted; every other row is unchanged.  The other
    counters and the dead letters are untouched. *)
Theorem C7_sweep (now : Z) (b : PersistentBuffer) :
  messages (_cleanup now b) = omap (sweep_row now) (messages b)
  /\ messages_expired (stats (_cleanup now b))
     = messages_expired (stats b)
       + sql_rowcount (fun r => (r_expire_at r <? now) && is_live r) (messages b)
  /\ messages_added (stats (_cleanup now b)) = messages_added (stats b)
  /\ messages_processed (stats (_cleanup now b)) = messages_processed (stats b)
  /\ messages_failed (stats (_cleanup now b)) = messages_failed (stats b)
  /\ failed_messages (_cleanup now b) = failed_messages b.
Proof.
  split.
  - unfold _cleanup. simpl. induction (messages b) as [|r rows IH]; [done|].
    rewrite cleanup_row, IH. simpl. by destruct (sweep_row now r).
  - unfold _cleanup. simpl.
    change (sql_rowcount (fun r => (r_expire_at r <? now) && is_live r) (messages b))
      with (sql_rowcount (is_overdue now) (messages b)).
    pose proof (sql_rowcount_nonneg (is_overdue now) (messages b)).
    destruct (0 <? sql_rowcount (is_overdue now) (messages b)) eqn:Hpos; simpl;
      repeat split; lia.
Qed.

(** Scenario S4: the message expires at 60; the sweep at 61 makes it
    expired, counts it once and writes no dead letter. *)
Lemma C7_sweep_witness :
  status_of 1 (_cleanup 61 Sample.short_lived) = Some EXPIRED
  /\ messages_expired (stats (_cleanup 61 Sample.short_lived)) = 1
  /\ failed_messages (_cleanup 61 Sample.short_lived) = [].
Proof.
  destruct (C7_sweep 61 Sample.short_lived) as (Hrows & Hcount & _ & _ & _ & Hdead).
  split; [|split].
  - unfold status_of, lookup_message. rewrite Hrows. reflexivity.
  - rewrite Hcount. reflexivity.
  - rewrite Hdead. reflexivity.
Defined.

(** A pending message whose expiry is the instant of the sweep stays
    pending. *)
Lemma C7_counterexample : ~ sweep_expires_as_stated 60 Sample.short_lived.
Proof.
  intros H. destruct (H 1 _ eq_refl) as [Hs|Hs].
  - vm_compute. discriminate.
  - reflexivity.
  - vm_compute in Hs. discriminate.
  - vm_compute in Hs. discriminate.
Qed.

(** ** Enqueue on a full buffer *)







(** ** The value column *)

(** Values other than strings are written by [json.dumps] and read back
    by [json.loads]. *)
Lemma json_round_trip_sample :
  let v := PDict [("mapping", PDict [("mqtt_topic", PStr "plant/temperature");
                                     ("data_type", PStr "Float")]);
                  ("qos", PInt 1); ("retained", PBool false);
                  ("history", PList [PInt (-40); PInt 0; PInt 1250; PNone])] in
  Json.loads (Json.dumps v) = Some v
  /\ decode_value (value_json v) = v.
Proof. by vm_compute. Qed.

(** What a string value becomes after [add_message] and
    [_row_to_message]: the text is stored as it is and then read as JSON. *)
Lemma string_value_decoded (s : string) :
  decode_value (value_json (PStr s))
  = if String.eqb s "" then PNone else default (PStr s) (Json.loads s).
Proof. unfold decode_value, value_json. by destruct (Json.loads s). Qed.

(** C3.  The value does not round-trip for the data type [String]: the
    string ["123"] is stored as the text [123], and the lease returns the
    integer 123. *)
Theorem C3_string_value_returns_as_number :
  r_value <$> messages Sample.numeric_text = ["123"]
  /\ m_value <$> (get_pending_messages 101 1 None None Sample.numeric_text).2
     = [PInt 123]
  /\ m_data_type <$> (get_pending_messages 101 1 None None Sample.numeric_text).2
     = [Some "String"].
Proof. by vm_compute. Qed.

(** ** Route congestion *)

(** Whatever the table holds, a route is reported only above 500 live
    messages, and then with severity medium. *)
Lemma route_congestion_reports rows a :
  a ∈ detect_route_congestion rows ->
  a_type a = route_congestion /\ a_severity a = medium
  /\ exists n, a_count a = Some n /\ 500 < n.
Proof.
  unfold detect_route_congestion. rewrite list_elem_of_In, in_flat_map.
  intros (g & _ & Ha). destruct (500 <? g.2) eqn:Hn; [|done].
  destruct Ha as [<-|[]]. simpl. repeat split. exists g.2. split; [done|lia].
Qed.

(** C9.  A route with 101 pending messages passes the query
    ([HAVING count > 100]) and is not reported; a route with 501 pending
    messages is reported with severity medium, not high. *)
Theorem C9_route_congestion_needs_500 :
  congested_routes (Sample.route_rows 101) = [("mqtt", "opcua", 101)]
  /\ detect_anomalies 200 (Sample.route_rows 101) = []
  /\ detect_route_congestion (Sample.route_rows 501)
     = [mkAnomaly route_congestion medium (Some 501) (Some "mqtt->opcua")].
Proof. by vm_compute. Qed.

(** ** Load prediction *)

(** The two day-of-week numberings never agree: Python's number is
    SQLite's number of the day before. *)
Lemma weekday_numberings_differ (t : Z) :
  py_weekday t = (sql_day_of_week t + 6) mod 7 /\ py_weekday t <> sql_day_of_week t.
Proof.
  unfold py_weekday, sql_day_of_week.
  pose proof (Z.mod_pos_bound (t / day + 3) 7).
  pose proof (Z.mod_pos_bound (t / day + 4) 7).
  assert (((t / day + 4) mod 7 + 6) mod 7 = (t / day + 3) mod 7) as Heq.
  { rewrite Zplus_mod_idemp_l.
    replace (t / day + 4 + 6) with (t / day + 3 + 1 * 7) by lia.
    apply Z_mod_plus_full. }
  split; [done|].
  intros Hsame. rewrite <- Heq in Hsame.
  set (d := (t / day + 4) mod 7) in *.
  assert (0 <= d < 7) by (subst d; lia).
  assert ((d + 6) mod 7 = if d =? 0 then 6 else d - 1) as Hd.
  { destruct (d =? 0) eqn:Hzero.
    - replace d with 0 by lia. done.
    - replace (d + 6) with (d - 1 + 1 * 7) by lia.
      rewrite Z_mod_plus_full. apply Z.mod_small. lia. }
  rewrite Hd in Hsame. destruct (d =? 0) eqn:Hzero; lia.
Qed.

(** C8.  One message was created on Monday at 10:00.  A week later, on
    Monday at 10:05, the bucket of the hour to predict holds that sample,
    yet the prediction for this hour is the fallback (the default 50, with
    confidence 30) and not [min(90, 50 + 2 * 1) = 52]: the history is keyed
    by SQLite's day number (Monday is 1) and looked up by Python's (Monday
    is 0). *)
Theorem C8_monday_bucket_missed (stdev : list Z -> Q) :
  let now := Sample.monday_10h + 7 * day + 300 in
  let pattern_stats :=
    pattern_stats_of stdev (patterns_of (history now Sample.monday_history)) in
  (ps_samples <$> pattern_stats !! (sql_day_of_week now, hour_of_day now)) = Some 1
  /\ pattern_stats !! (py_weekday now, hour_of_day now) = None
  /\ lp_predictions (predict_load stdev now 1 Sample.monday_history)
     = [mkPrediction (Sample.monday_10h + 7 * day) 50 30 25 75].
Proof. by vm_compute. Qed.

(** * Further properties of the buffer *)

(** ** Enqueue and look-up *)


Lemma overflow_stats now b :
  stats (_handle_buffer_overflow now b) = stats b
  /\ failed_messages (_handle_buffer_overflow now b) = failed_messages b
  /\ ttl_minutes (_handle_buffer_overflow now b) = ttl_minutes b.
Proof.
  unfold _handle_buffer_overflow.
  by destruct (_ <? 50); [destruct (delete_limit b)|].
Qed.

(** The buffer on which [add_message] runs its INSERT. *)
Lemma add_message_base now m b :
  exists b1,
    add_message now m b = insert_message now m b1
    /\ messages b1 `sublist_of` messages b
    /\ messages_seq b1 = messages_seq b
    /\ stats b1 = stats b
    /\ failed_messages b1 = failed_messages b
    /\ ttl_minutes b1 = ttl_minutes b.
Proof.
  unfold add_message. destruct (max_size b <=? get_pending_count b).
  - exists (_handle_buffer_overflow now b).
    destruct (overflow_stats now b) as (? & ? & ?).
    repeat split; try done; [apply overflow_sublist|apply overflow_seq].
  - by exists b.
Qed.




Lemma new_row_insertable now ttl message_id m :
  is_Some (new_row now ttl message_id m) <-> insertable m.
Proof.
  unfold new_row, insertable.
  destruct (m_source m), (m_destination m), (m_topic_or_node m), (m_data_type m);
    simpl; split; intros H; try done;
    repeat match goal with
           | H : _ /\ _ |- _ => destruct H
           | H : is_Some None |- _ => by destruct H
           end.
Qed.

(** X2.  A message that lacks one of the four NOT NULL columns (source,
    destination, topic_or_node, data_type) is refused: [add_message]
    returns [None], inserts no row, does not advance the id counter and
    does not count the message.  The overflow policy has run before the
    INSERT, so rows may be gone although nothing was stored; on a buffer
    below its capacity the refusal leaves the buffer exactly as it was. *)
Theorem add_message_rejects_missing_columns (now : Z) (m : BufferedMessage)
    (b : PersistentBuffer) :
  ~ insertable m ->
  (add_message now m b).2 = None
  /\ messages (add_message now m b).1 `sublist_of` messages b
  /\ messages_seq (add_message now m b).1 = messages_seq b
  /\ stats (add_message now m b).1 = stats b
  /\ (get_pending_count b < max_size b -> (add_message now m b).1 = b).
Proof.
  intros Hbad.
  assert (Hnone : forall ttl message_id, new_row now ttl message_id m = None).
  { intros ttl message_id.
    pose proof (new_row_insertable now ttl message_id m) as Hnew.
    destruct (new_row now ttl message_id m); [|done].
    destruct Hbad. apply Hnew. by eexists. }
  split; [|split; [|split; [|split]]].
  - destruct (add_message_base now m b) as (b1 & -> & _).
    unfold insert_message. by rewrite Hnone.
  - destruct (add_message_base now m b) as (b1 & -> & Hsub & _).
    unfold insert_message. by rewrite Hnone.
  - destruct (add_message_base now m b) as (b1 & -> & _ & Hseq & _).
    unfold insert_message. by rewrite Hnone.
  - destruct (add_message_base now m b) as (b1 & -> & _ & _ & Hstats & _).
    unfold insert_message. by rewrite Hnone.
  - intros Hroom. unfold add_message.
    replace (max_size b <=? get_pending_count b) with false by lia.
    unfold insert_message. by rewrite Hnone.
Qed.

Lemma add_message_rejects_missing_columns_witness :
  add_message 100
    (mkMessage None None (Some "mqtt") (Some "plant/temperature") (PInt 23)
               (Some "Int32") None PENDING 1 0 3 None None None None PNone)
    Sample.one_pending
  = (Sample.one_pending, None).
Proof.
  destruct (add_message_rejects_missing_columns 100
              (mkMessage None None (Some "mqtt") (Some "plant/temperature") (PInt 23)
                         (Some "Int32") None PENDING 1 0 3 None None None None PNone)
              Sample.one_pending) as (Hnone & _ & _ & _ & Hsame).
  - intros ([src Hsrc] & _). discriminate.
  - apply injective_projections; [apply Hsame; by vm_compute|exact Hnone].
Defined.

(** ** Unknown ids *)

Lemma lookup_message_none message_id b :
  lookup_message message_id b = None ->
  Forall (fun r => has_id message_id r = false) (messages b).
Proof.
  unfold lookup_message. intros Hnone. apply Forall_forall. intros r Hr.
  apply list_elem_of_In in Hr. by eapply find_none in Hnone.
Qed.

(** X3.  [mark_completed] and [mark_failed] on an id that is not in the
    table return [False] and leave the table, the dead letters and the
    counters as they were. *)
Theorem mark_unknown_id (now message_id : Z) (err : option string) (b : PersistentBuffer) :
  lookup_message message_id b = None ->
  mark_completed now message_id b = (b, false)
  /\ mark_failed now message_id err b = (b, false).
Proof.
  intros Hnone. split.
  - apply lookup_message_none in Hnone. unfold mark_completed.
    rewrite sql_update_miss, with_messages_same by done.
    assert (sql_rowcount (has_id message_id) (messages b) = 0) as ->; [|done].
    unfold sql_rowcount. induction (messages b) as [|r rows IH]; [done|].
    apply Forall_cons in Hnone as [Hr Hnone]. simpl. rewrite Hr. by apply IH.
  - unfold lookup_message in Hnone. unfold mark_failed. by rewrite Hnone.
Qed.

Lemma mark_unknown_id_witness :
  mark_completed 200 7 Sample.one_pending = (Sample.one_pending, false)
  /\ mark_failed 200 7 (Some "timeout") Sample.one_pending = (Sample.one_pending, false).
Proof. apply mark_unknown_id. reflexivity. Defined.

(** ** Leases *)

Lemma leased_row_selected now limit source destination b r :
  NoDup (r_id <$> messages b) ->
  r ∈ messages b ->
  r_id r ∈ r_id <$> select_pending now limit source destination (messages b) ->
  r ∈ select_pending now limit source destination (messages b)
  /\ r_status r = PENDING.
Proof.
  intros Hnd Hr Hid. apply list_elem_of_fmap in Hid as (rs & Hid & Hrs).
  pose proof (select_pending_elem _ _ _ _ _ _ Hrs) as [Hin Hpending].
  assert (rs = r) as Heq by (eapply unique_by_id; eauto). by subst rs.
Qed.

Lemma sql_rowcount_update (count cond : Row -> bool) f rows :
  Forall (fun r => cond r = true -> count (f r) = count r) rows ->
  sql_rowcount count (sql_update cond f rows) = sql_rowcount count rows.
Proof.
  induction rows as [|r rows IH]; intros Hsame; [done|].
  apply Forall_cons in Hsame as [Hr Hsame].
  change (sql_update cond f (r :: rows))
    with ((if cond r then f r else r) :: sql_update cond f rows).
  rewrite !sql_rowcount_cons, (IH Hsame). destruct (cond r); [by rewrite Hr|done].
Qed.

(** X4.  On a table with unique ids a lease does not change the pending
    count: the leased messages move from pending to processing and are
    still counted, so leasing never frees capacity. *)
Theorem lease_keeps_pending_count (now limit : Z) (source destination : option string)
    (b : PersistentBuffer) :
  NoDup (r_id <$> messages b) ->
  get_pending_count (get_pending_messages now limit source destination b).1
  = get_pending_count b.
Proof.
  intros Hnd. unfold get_pending_count. simpl.
  apply sql_rowcount_update, Forall_forall. intros r Hr Hsel.
  apply id_in_spec in Hsel.
  destruct (leased_row_selected _ _ _ _ _ _ Hnd Hr Hsel) as [_ Hpending].
  unfold is_live, has_status, status_eqb. simpl. by rewrite Hpending.
Qed.

Lemma sample_three_priorities_nodup : NoDup (r_id <$> messages Sample.three_priorities).
Proof. apply (bool_decide_unpack _). by vm_compute. Qed.

Lemma lease_keeps_pending_count_witness :
  get_pending_count (get_pending_messages 200 2 None None Sample.three_priorities).1 = 3.
Proof.
  rewrite (lease_keeps_pending_count 200 2 None None Sample.three_priorities
             sample_three_priorities_nodup).
  reflexivity.
Defined.

(** X5.  A message returned by a lease is not returned by a later lease,
    whatever its instant, limit and filters, as long as nothing else has
    touched the table in between. *)
Theorem no_double_lease (now now' limit limit' : Z)
    (source destination source' destination' : option string) (b : PersistentBuffer)
    (m m' : BufferedMessage) :
  m ∈ (get_pending_messages now limit source destination b).2 ->
  m' ∈ (get_pending_messages now' limit' source' destination'
          (get_pending_messages now limit source destination b).1).2 ->
  m_id m <> m_id m'.
Proof.
  simpl. intros Hm Hm'.
  apply list_elem_of_fmap in Hm as (r & -> & Hr).
  apply list_elem_of_fmap in Hm' as (r' & -> & Hr').
  apply select_pending_elem in Hr' as [Hr' Hpending].
  apply elem_of_sql_update in Hr' as (r0 & Hr0 & ->).
  simpl. intros [= Hid].
  destruct (id_in _ r0) eqn:Hsel; [done|].
  apply (f_equal (fun x => negb x)) in Hsel. simpl in Hsel.
  assert (id_in (r_id <$> select_pending now limit source destination (messages b)) r0
          = true) as Hyes.
  { apply id_in_spec. rewrite <- Hid. apply list_elem_of_fmap. by exists r. }
  rewrite Hyes in Hsel. done.
Qed.

Lemma no_double_lease_witness :
  let leased := _row_to_message (Sample.row 2 PENDING 3 100 3700) in
  let later := _row_to_message (Sample.row 1 PENDING 0 100 3700) in
  leased ∈ (get_pending_messages 200 2 None None Sample.three_priorities).2
  /\ later ∈ (get_pending_messages 201 5 None None
                (get_pending_messages 200 2 None None Sample.three_priorities).1).2
  /\ m_id leased <> m_id later.
Proof.
  intros leased later.
  assert (Hfirst : leased ∈ (get_pending_messages 200 2 None None
                               Sample.three_priorities).2)
    by (vm_compute; apply list_elem_of_here).
  assert (Hlater : later ∈ (get_pending_messages 201 5 None None
                              (get_pending_messages 200 2 None None
                                 Sample.three_priorities).1).2)
    by (vm_compute; apply list_elem_of_here).
  split; [exact Hfirst|]. split; [exact Hlater|].
  exact (no_double_lease 200 201 2 5 None None None None Sample.three_priorities
                         leased later Hfirst Hlater).
Defined.

Lemma set_status_same r : set_status (r_status r) r = r.
Proof. by destruct r. Qed.

Lemma set_status_twice s s' r : set_status s (set_status s' r) = set_status s r.
Proof. done. Qed.

(** X6.  Crash recovery: when no message was being processed, a lease
    followed by [reset_processing_messages] gives back the table exactly
    as it was before the lease, so every leased message can be leased
    again. *)
Theorem lease_then_reset_restores (now limit : Z) (source destination : option string)
    (b : PersistentBuffer) :
  NoDup (r_id <$> messages b) ->
  Forall (fun r => r_status r <> PROCESSING) (messages b) ->
  reset_processing_messages (get_pending_messages now limit source destination b).1 = b.
Proof.
  intros Hnd Hidle. unfold reset_processing_messages. simpl.
  assert (Hrows : sql_update (has_status PROCESSING) (set_status PENDING)
                    (sql_update
                       (id_in (r_id <$> select_pending now limit source destination
                                          (messages b)))
                       (set_status PROCESSING) (messages b))
                  = messages b).
  { unfold sql_update. rewrite <- list_fmap_compose.
    rewrite <- (list_fmap_id (messages b)) at 2.
    apply Forall_fmap_ext, Forall_forall. intros r Hr. simpl.
    destruct (id_in _ r) eqn:Hsel.
    - apply id_in_spec in Hsel.
      destruct (leased_row_selected _ _ _ _ _ _ Hnd Hr Hsel) as [_ Hpending].
      unfold has_status, status_eqb. simpl.
      rewrite set_status_twice, <- Hpending. apply set_status_same.
    - rewrite Forall_forall in Hidle. specialize (Hidle r Hr).
      unfold has_status, status_eqb. by rewrite bool_decide_eq_false_2. }
  unfold with_messages at 1. simpl. rewrite Hrows. by destruct b.
Qed.

Lemma lease_then_reset_restores_witness :
  reset_processing_messages (get_pending_messages 200 2 None None
                               Sample.three_priorities).1
  = Sample.three_priorities.
Proof.
  apply lease_then_reset_restores; [exact sample_three_priorities_nodup|].
  repeat constructor; discriminate.
Defined.

(** X7.  After [reset_processing_messages] no message is processing, and
    the pending count is the same as before: every message that was
    pending or processing is now pending. *)
Theorem reset_leaves_none_processing (b : PersistentBuffer) :
  Forall (fun r => r_status r <> PROCESSING) (messages (reset_processing_messages b))
  /\ get_pending_count (reset_processing_messages b) = get_pending_count b
  /\ count_status PENDING (messages (reset_processing_messages b)) = get_pending_count b.
Proof.
  assert (Hnone : Forall (fun r => r_status r <> PROCESSING)
                    (messages (reset_processing_messages b))).
  { apply Forall_forall. intros r' Hr'. simpl in Hr'.
    apply elem_of_sql_update in Hr' as (r & _ & ->).
    destruct (has_status PROCESSING r) eqn:Hp; [done|].
    intros Hs. apply has_status_spec in Hs. congruence. }
  assert (Hcount : get_pending_count (reset_processing_messages b) = get_pending_count b).
  { unfold get_pending_count. simpl. apply sql_rowcount_update, Forall_forall.
    intros r _ Hp. apply has_status_spec in Hp.
    unfold is_live, has_status, status_eqb. simpl. by rewrite Hp. }
  split; [done|]. split; [done|].
  rewrite <- Hcount. unfold get_pending_count. rewrite is_live_count.
  assert (count_status PROCESSING (messages (reset_processing_messages b)) = 0) as ->; [|lia].
  unfold count_status, sql_rowcount.
  induction Hnone as [|r rows Hr _ IH]; [done|].
  simpl. destruct (has_status PROCESSING r) eqn:Hp; [|done].
  by apply has_status_spec in Hp.
Qed.

Lemma id_in_single message_id r : id_in [message_id] r = has_id message_id r.
Proof.
  unfold id_in, has_id. destruct (Z.eqb_spec (r_id r) message_id) as [->|Hne].
  - apply bool_decide_eq_true_2, list_elem_of_here.
  - apply bool_decide_eq_false_2. intros Hin. apply list_elem_of_singleton in Hin. done.
Qed.

(** X8.  [get_next_message] is the lease of a batch of one: it returns
    the message that [get_pending_messages] with [limit = 1] returns and
    leaves the table in the same state. *)
Theorem get_next_message_is_batch_of_one (now : Z) (source destination : option string)
    (b : PersistentBuffer) :
  (get_next_message now source destination b).2
  = head (get_pending_messages now 1 source destination b).2
  /\ messages (get_next_message now source destination b).1
     = messages (get_pending_messages now 1 source destination b).1
  /\ (length (get_pending_messages now 1 source destination b).2 <= 1)%nat.
Proof.
  unfold get_next_message, get_pending_messages, select_pending, sql_limit.
  change (1 <? 0) with false. cbn iota. change (Z.to_nat 1) with 1%nat.
  destruct (merge_sort lease_order _) as [|row rest]; simpl.
  - split; [done|]. split; [|lia]. by rewrite sql_update_miss by (apply Forall_forall; done).
  - split; [done|]. split; [|lia].
    unfold sql_update. apply list_fmap_ext. intros i r _. simpl.
    by rewrite id_in_single.
Qed.

(** ** Completing and capacity *)

Lemma sql_rowcount_update_by_id (count : Row -> bool) f message_id rows r :
  NoDup (r_id <$> rows) ->
  List.find (has_id message_id) rows = Some r ->
  sql_rowcount count (sql_update (has_id message_id) f rows)
  = sql_rowcount count rows - (if count r then 1 else 0) + (if count (f r) then 1 else 0).
Proof.
  induction rows as [|r0 rows IH]; intros Hnd Hfind; [done|].
  rewrite fmap_cons in Hnd. apply NoDup_cons in Hnd as [Hnew Hnd].
  change (sql_update (has_id message_id) f (r0 :: rows))
    with ((if has_id message_id r0 then f r0 else r0)
            :: sql_update (has_id message_id) f rows).
  simpl in Hfind. rewrite !sql_rowcount_cons.
  destruct (has_id message_id r0) eqn:Hhit.
  - injection Hfind as <-. rewrite sql_update_miss;
      [destruct (count r0), (count (f r0)); lia|].
    apply Forall_forall. intros r' Hr'. unfold has_id in *.
    destruct (Z.eqb_spec (r_id r') message_id) as [Heq|]; [|done].
    exfalso. apply Hnew. apply list_elem_of_fmap. exists r'. split; [lia|done].
  - rewrite (IH Hnd Hfind). destruct (count r0), (count r), (count (f r)); lia.
Qed.

(** X9.  On a table with unique ids, completing a stored message lowers
    the pending count by one when the message was pending or processing
    and leaves it unchanged otherwise; [messages_processed] grows by one in
    both cases, so completing a message twice counts it twice. *)
Theorem mark_completed_frees_one_slot (now message_id : Z) (b : PersistentBuffer) (r : Row) :
  NoDup (r_id <$> messages b) ->
  lookup_message message_id b = Some r ->
  get_pending_count (mark_completed now message_id b).1
  = get_pending_count b - (if is_live r then 1 else 0)
  /\ messages_processed (stats (mark_completed now message_id b).1)
     = messages_processed (stats b) + 1.
Proof.
  intros Hnd Hr.
  assert (Hcount : (0 <? sql_rowcount (has_id message_id) (messages b)) = true).
  { unfold lookup_message in Hr. apply find_some in Hr as [Hin Hid].
    unfold sql_rowcount. apply Z.ltb_lt.
    assert (Hf : In r (List.filter (has_id message_id) (messages b)))
      by (apply filter_In; done).
    destruct (List.filter _ _); [done|simpl; lia]. }
  unfold mark_completed. rewrite Hcount. unfold get_pending_count. simpl.
  split; [|done].
  rewrite (sql_rowcount_update_by_id is_live (set_completed now) message_id _ r Hnd Hr).
  change (is_live (set_completed now r)) with false. destruct (is_live r); lia.
Qed.

Lemma sample_full_nodup : NoDup (r_id <$> messages Sample.full).
Proof. apply (bool_decide_unpack _). by vm_compute. Qed.

Lemma mark_completed_frees_one_slot_witness :
  get_pending_count (mark_completed 200 2 Sample.full).1 = 1.
Proof.
  destruct (mark_completed_frees_one_slot 200 2 Sample.full
              (Sample.row 2 PROCESSING 1 101 3701) sample_full_nodup eq_refl)
    as [Hcount _].
  rewrite Hcount. reflexivity.
Defined.

(** ** What the overflow policy may delete *)

Lemma sql_delete_limit_keeps_row n cond rows r :
  r ∈ rows -> cond r = false -> r ∈ sql_delete_limit n cond rows.
Proof.
  intros Hr Hc.
  assert (Hin : r ∈ List.filter (fun r => negb (cond r)) rows)
    by (apply elem_of_sql_filter; by rewrite Hc).
  rewrite <- (sql_delete_limit_keeps n) in Hin.
  by apply elem_of_sql_filter in Hin as [? _].
Qed.

(** X10.  On a table with unique ids the overflow policy deletes only
    completed rows and rows whose expiry is past: a row that is not
    completed and has not expired is still in the table afterwards,
    unchanged. *)
Theorem overflow_keeps_deliverable_rows (now : Z) (b : PersistentBuffer) (r : Row) :
  NoDup (r_id <$> messages b) ->
  r ∈ messages b ->
  r_status r <> COMPLETED ->
  now <= r_expire_at r ->
  r ∈ messages (_handle_buffer_overflow now b).
Proof.
  intros Hnd Hr Hstatus Hexpire.
  assert (Hfirst : r ∈ sql_delete (id_in (overflow_completed_ids (messages b))) (messages b)).
  { apply elem_of_sql_delete. split; [done|].
    destruct (id_in _ r) eqn:Hsel; [exfalso|done].
    apply id_in_spec in Hsel. unfold overflow_completed_ids in Hsel.
    apply list_elem_of_fmap in Hsel as (rs & Hid & Hrs).
    apply subseteq_take in Hrs. rewrite merge_sort_Permutation in Hrs.
    apply elem_of_sql_filter in Hrs as [Hin Hcompleted].
    assert (rs = r) as -> by (eapply unique_by_id; eauto).
    by apply has_status_spec in Hcompleted. }
  unfold _handle_buffer_overflow.
  destruct (_ <? 50); [destruct (delete_limit b)|]; simpl; try done.
  apply sql_delete_limit_keeps_row; [done|]. unfold is_past_expiry. lia.
Qed.

Lemma overflow_keeps_deliverable_rows_witness :
  Sample.row 1 PENDING 1 100 3700 ∈ messages (_handle_buffer_overflow 200 Sample.full).
Proof.
  apply overflow_keeps_deliverable_rows.
  - exact sample_full_nodup.
  - apply list_elem_of_here.
  - discriminate.
  - vm_compute. discriminate.
Defined.

(** ** Sweeping twice *)

Lemma sql_delete_miss cond rows :
  Forall (fun r => cond r = false) rows -> sql_delete cond rows = rows.
Proof.
  unfold sql_delete. induction rows as [|r rows IH]; intros Hmiss; simpl; [done|].
  apply Forall_cons in Hmiss as [-> Hmiss]. simpl. by rewrite IH.
Qed.

Lemma sql_rowcount_miss cond rows :
  Forall (fun r => cond r = false) rows -> sql_rowcount cond rows = 0.
Proof.
  unfold sql_rowcount. induction rows as [|r rows IH]; intros Hmiss; simpl; [done|].
  apply Forall_cons in Hmiss as [-> Hmiss]. by apply IH.
Qed.

Lemma filter_twice {A : Type} (keep : A -> bool) (l : list A) :
  List.filter keep (List.filter keep l) = List.filter keep l.
Proof.
  induction l as [|x l IH]; simpl; [done|].
  destruct (keep x) eqn:Hx; simpl; [by rewrite Hx, IH|done].
Qed.

Lemma cleanup_rows_settled now b :
  Forall (fun r => is_overdue now r = false
                   /\ is_old_completed now r = false
                   /\ is_old_expired now r = false)
         (messages (_cleanup now b)).
Proof.
  apply Forall_forall. intros r' Hr'. simpl in Hr'.
  apply elem_of_sql_delete in Hr' as [Hr' Hexpired].
  apply elem_of_sql_delete in Hr' as [Hr' Hcompleted].
  apply elem_of_sql_update in Hr' as (r & _ & ->).
  split; [|done].
  destruct (is_overdue now r) eqn:Hover; [|done].
  unfold is_overdue, is_live, has_status, status_eqb. simpl. apply andb_false_r.
Qed.

(** X11.  The sweep is idempotent at a fixed instant: a second sweep at
    the same [now] changes neither the tables nor the counters. *)
Theorem sweep_twice_is_sweep_once (now : Z) (b : PersistentBuffer) :
  _cleanup now (_cleanup now b) = _cleanup now b.
Proof.
  pose proof (cleanup_rows_settled now b) as Hsettled.
  set (b1 := _cleanup now b) in *.
  unfold _cleanup at 1.
  rewrite sql_rowcount_miss
    by (eapply Forall_impl; [exact Hsettled|]; by intros r (? & _)).
  rewrite (sql_update_miss (is_overdue now))
    by (eapply Forall_impl; [exact Hsettled|]; by intros r (? & _)).
  rewrite (sql_delete_miss (is_old_completed now))
    by (eapply Forall_impl; [exact Hsettled|]; by intros r (_ & ? & _)).
  rewrite (sql_delete_miss (is_old_expired now))
    by (eapply Forall_impl; [exact Hsettled|]; by intros r (_ & _ & ?)).
  change (0 <? 0) with false. cbn iota.
  assert (Hstat : List.filter (fun t => negb (t <? now - 30 * day)) (statistics b1)
                  = statistics b1)
    by (subst b1; simpl; apply filter_twice).
  rewrite Hstat. by destruct b1.
Qed.

(** ** Statistics *)

Lemma Zsum_cons z l : Zsum (z :: l) = z + Zsum l.
Proof. done. Qed.

Lemma Zsum_add {A : Type} (f g : A -> Z) (l : list A) :
  Zsum ((fun x => f x + g x) <$> l) = Zsum (f <$> l) + Zsum (g <$> l).
Proof.
  induction l as [|x l IH]; [done|]. rewrite !fmap_cons, !Zsum_cons, IH. lia.
Qed.

Lemma Zsum_zero {A : Type} (f : A -> Z) (l : list A) :
  Forall (fun x => f x = 0) l -> Zsum (f <$> l) = 0.
Proof.
  induction 1 as [|x l Hx _ IH]; [done|]. by rewrite fmap_cons, Zsum_cons, Hx, IH.
Qed.

Lemma Zsum_indicator {K : Type} `{EqDecision K} (ks : list K) (x : K) :
  NoDup ks -> x ∈ ks ->
  Zsum ((fun k => if bool_decide (x = k) then 1 else 0) <$> ks) = 1.
Proof.
  induction ks as [|k ks IH]; intros Hnd Hx; [by apply elem_of_nil in Hx|].
  apply NoDup_cons in Hnd as [Hnew Hnd]. rewrite fmap_cons, Zsum_cons.
  destruct (decide (x = k)) as [->|Hne].
  - rewrite bool_decide_eq_true_2 by done.
    rewrite Zsum_zero; [done|].
    apply Forall_forall. intros k' Hk'.
    rewrite bool_decide_eq_false_2; [done|]. by intros ->.
  - rewrite bool_decide_eq_false_2 by done.
    apply elem_of_cons in Hx as [?|Hx]; [done|]. by rewrite IH.
Qed.

Lemma group_count_total {K : Type} `{EqDecision K} (keys : list K) :
  Zsum (snd <$> group_count keys) = Z.of_nat (length keys).
Proof.
  unfold group_count. rewrite <- list_fmap_compose.
  assert (Hgen : forall ks, NoDup ks -> keys ⊆ ks ->
            Zsum ((fun k => Z.of_nat (length (List.filter
                                                (fun k' => bool_decide (k' = k)) keys)))
                    <$> ks)
            = Z.of_nat (length keys)).
  { clear. intros ks Hnd. induction keys as [|x keys IH]; intros Hsub.
    - apply Zsum_zero, Forall_forall. done.
    - assert (Hx : x ∈ ks) by (apply Hsub, list_elem_of_here).
      assert (Hrest : keys ⊆ ks)
        by (intros k Hk; apply Hsub; by apply list_elem_of_further).
      rewrite length_cons, Nat2Z.inj_succ, <- Z.add_1_l.
      rewrite <- (IH Hrest), <- (Zsum_indicator ks x Hnd Hx), <- Zsum_add.
      f_equal. apply list_fmap_ext. intros i k _. simpl.
      destruct (bool_decide (x = k)); simpl; lia. }
  apply Hgen; [apply NoDup_remove_dups|].
  intros k Hk. by apply elem_of_remove_dups.
Qed.

Lemma get_statistics_some b s :
  get_statistics b = Some s ->
  max_size b <> 0
  /\ s_buffer_size s = get_pending_count b
  /\ s_status_counts s = group_count (r_status <$> messages b)
  /\ s_route_counts s = group_count (route <$> List.filter is_live (messages b))
  /\ s_oldest_pending s
     = list_min (r_created_at <$> List.filter (has_status PENDING) (messages b))
  /\ s_utilization_percent s
     = (inject_Z (get_pending_count b) / inject_Z (max_size b) * 100)%Q.
Proof.
  unfold get_statistics. destruct (Z.eqb_spec (max_size b) 0); [done|].
  by intros [= <-].
Qed.

(** X12.  In the dictionary of [get_statistics] the counts per route add
    up to [buffer_size], and the counts per status add up to the number
    of rows of the table. *)
Theorem statistics_counts_add_up (b : PersistentBuffer) (s : BufferStatistics) :
  get_statistics b = Some s ->
  Zsum (snd <$> s_route_counts s) = s_buffer_size s
  /\ Zsum (snd <$> s_status_counts s) = Z.of_nat (length (messages b)).
Proof.
  intros Hs. apply get_statistics_some in Hs as (_ & -> & -> & -> & _).
  rewrite !group_count_total, !length_fmap. done.
Qed.

Lemma statistics_counts_add_up_witness :
  exists s, get_statistics Sample.full = Some s
            /\ Zsum (snd <$> s_route_counts s) = 2.
Proof.
  eexists. split; [reflexivity|].
  destruct (statistics_counts_add_up Sample.full _ eq_refl) as [Hroutes _].
  rewrite Hroutes. reflexivity.
Defined.

Lemma list_min_spec (l : list Z) :
  match list_min l with
  | None => l = []
  | Some t => t ∈ l /\ Forall (fun x => t <= x) l
  end.
Proof.
  destruct l as [|x rest]; simpl; [done|].
  induction rest as [|y rest IH]; simpl.
  - split; [apply list_elem_of_here|]. repeat constructor. lia.
  - destruct IH as [Hin Hle]. apply Forall_cons in Hle as [Hx Hrest].
    split.
    + destruct (Z.min_spec y (fold_right Z.min x rest)) as [[_ ->]|[_ ->]].
      * apply list_elem_of_further, list_elem_of_here.
      * apply elem_of_cons in Hin as [->|Hin]; [apply list_elem_of_here|].
        by do 2 apply list_elem_of_further.
    + repeat apply Forall_cons_2; try lia.
      eapply Forall_impl; [exact Hrest|]. intros z Hz. simpl in Hz. lia.
Qed.

(** X13.  [oldest_pending] is [None] exactly when no message is pending;
    otherwise it is the creation time of a pending message and no pending
    message is older. *)
Theorem statistics_oldest_pending (b : PersistentBuffer) (s : BufferStatistics) :
  get_statistics b = Some s ->
  match s_oldest_pending s with
  | None => Forall (fun r => r_status r <> PENDING) (messages b)
  | Some t =>
      (exists r, r ∈ messages b /\ r_status r = PENDING /\ r_created_at r = t)
      /\ Forall (fun r => r_status r = PENDING -> t <= r_created_at r) (messages b)
  end.
Proof.
  intros Hs. apply get_statistics_some in Hs as (_ & _ & _ & _ & -> & _).
  pose proof (list_min_spec
                (r_created_at <$> List.filter (has_status PENDING) (messages b))) as Hmin.
  destruct (list_min _) as [t|].
  - destruct Hmin as [Hin Hle]. split.
    + apply list_elem_of_fmap in Hin as (r & -> & Hr).
      apply elem_of_sql_filter in Hr as [Hr Hp]. apply has_status_spec in Hp.
      by exists r.
    + apply Forall_forall. intros r Hr Hp.
      rewrite Forall_forall in Hle. apply Hle, list_elem_of_fmap. exists r.
      split; [done|]. apply elem_of_sql_filter. split; [done|].
      by apply has_status_spec.
  - apply fmap_nil_inv in Hmin. apply Forall_forall. intros r Hr Hp.
    assert (Hin : r ∈ List.filter (has_status PENDING) (messages b))
      by (apply elem_of_sql_filter; split; [done|]; by apply has_status_spec).
    rewrite Hmin in Hin. by apply elem_of_nil in Hin.
Qed.

Lemma statistics_oldest_pending_witness :
  Forall (fun r => r_status r = PENDING -> 100 <= r_created_at r)
         (messages Sample.three_priorities).
Proof.
  destruct (get_statistics Sample.three_priorities) as [s|] eqn:Hs;
    [|vm_compute in Hs; discriminate].
  pose proof (statistics_oldest_pending Sample.three_priorities s Hs) as Hold.
  vm_compute in Hs. injection Hs as <-. exact (proj2 Hold).
Defined.

(** X14.  [get_statistics] returns the empty dictionary exactly when
    [max_size] is 0 (the division raises).  For a positive [max_size] the
    reported utilization is at least 100 percent exactly when the pending
    count has reached [max_size], which is the test that makes
    [add_message] run the overflow policy. *)
Theorem statistics_utilization_full (b : PersistentBuffer) :
  (get_statistics b = None <-> max_size b = 0)
  /\ (0 < max_size b ->
      exists s, get_statistics b = Some s
                /\ ((100 <= s_utilization_percent s)%Q
                    <-> max_size b <= get_pending_count b)).
Proof.
  split.
  - unfold get_statistics. destruct (Z.eqb_spec (max_size b) 0); split; done.
  - intros Hpos. unfold get_statistics.
    replace (max_size b =? 0) with false by lia.
    eexists. split; [reflexivity|]. simpl.
    pose proof (sql_rowcount_nonneg is_live (messages b)) as Hcount.
    fold (get_pending_count b) in Hcount.
    destruct (max_size b) as [|p|p]; try lia.
    unfold Qle, Qdiv, Qmult, Qinv, inject_Z. simpl. split; nia.
Qed.

Lemma statistics_utilization_full_witness :
  exists s, get_statistics Sample.full = Some s
            /\ (100 <= s_utilization_percent s)%Q.
Proof.
  destruct (statistics_utilization_full Sample.full) as [_ Hfull].
  destruct Hfull as (s & Hs & Hiff); [reflexivity|].
  exists s. split; [exact Hs|]. apply Hiff. vm_compute. discriminate.
Defined.

(** ** Counters *)

(** X15.  Every operation of the buffer keeps the counter
    [messages_failed] in step with the table of dead letters: the
    difference between the counter and the number of dead letters never
    changes, so each dead letter written is counted exactly once. *)
Theorem dead_letters_counted_once (now limit message_id : Z)
    (source destination err : option string) (m : BufferedMessage) (b : PersistentBuffer) :
  failed_gap (add_message now m b).1 = failed_gap b
  /\ failed_gap (get_pending_messages now limit source destination b).1 = failed_gap b
  /\ failed_gap (get_next_message now source destination b).1 = failed_gap b
  /\ failed_gap (mark_completed now message_id b).1 = failed_gap b
  /\ failed_gap (mark_failed now message_id err b).1 = failed_gap b
  /\ failed_gap (_cleanup now b) = failed_gap b
  /\ failed_gap (reset_processing_messages b) = failed_gap b.
Proof.
  unfold failed_gap.
  split; [|split; [|split; [|split; [|split; [|split]]]]].
  - destruct (add_message_base now m b) as (b1 & -> & _ & _ & Hstats & Hfailed & _).
    unfold insert_message. destruct (new_row _ _ _ _); simpl; by rewrite Hstats, Hfailed.
  - done.
  - unfold get_next_message. by destruct (select_pending _ _ _ _ _).
  - unfold mark_completed. by destruct (0 <? _).
  - unfold mark_failed. destruct (List.find _ _); [|done].
    destruct (_ <=? _); simpl; [|done]. rewrite length_app. simpl. lia.
  - unfold _cleanup. simpl. by destruct (0 <? _).
  - done.
Qed.

(** ** One pass of the egress worker *)

Lemma find_unique rows r :
  NoDup (r_id <$> rows) -> r ∈ rows -> List.find (has_id (r_id r)) rows = Some r.
Proof.
  intros Hnd Hr.
  destruct (List.find (has_id (r_id r)) rows) as [r'|] eqn:Hfind.
  - apply find_some in Hfind as [Hin Hid]. apply list_elem_of_In in Hin.
    unfold has_id in Hid. f_equal. eapply unique_by_id; eauto. lia.
  - apply list_elem_of_In in Hr. eapply find_none in Hfind; [|exact Hr].
    unfold has_id in Hfind. lia.
Qed.

Lemma find_sql_update_cond message_id cond f rows :
  (forall r, r_id (f r) = r_id r) ->
  List.find (has_id message_id) (sql_update cond f rows)
  = (fun r => if cond r then f r else r) <$> List.find (has_id message_id) rows.
Proof.
  intros Hid. induction rows as [|r rows IH]; simpl; [done|].
  assert (Hsame : has_id message_id (if cond r then f r else r) = has_id message_id r)
    by (unfold has_id; destruct (cond r); by rewrite ?Hid).
  rewrite Hsame. by destruct (has_id message_id r).
Qed.

Lemma lookup_other_completed now message_id other b :
  other <> message_id ->
  lookup_message other (mark_completed now message_id b).1 = lookup_message other b.
Proof.
  intros Hne. unfold lookup_message, mark_completed.
  destruct (0 <? _); simpl; by apply find_sql_update_other.
Qed.

Lemma lookup_other_failed now message_id other err b :
  other <> message_id ->
  lookup_message other (mark_failed now message_id err b).1 = lookup_message other b.
Proof.
  intros Hne. unfold lookup_message, mark_failed.
  destruct (List.find (has_id message_id) _); [|done].
  destruct (_ <=? _); simpl; by apply find_sql_update_other.
Qed.

Lemma sql_filter_sublist (cond : Row -> bool) rows : List.filter cond rows `sublist_of` rows.
Proof.
  induction rows as [|r rows IH]; simpl; [done|].
  destruct (cond r); [by apply sublist_skip|by apply sublist_cons].
Qed.

Lemma select_pending_nodup now limit source destination rows :
  NoDup (r_id <$> rows) ->
  NoDup (r_id <$> select_pending now limit source destination rows).
Proof.
  intros Hnd. unfold select_pending.
  assert (Hsorted : NoDup (r_id <$> merge_sort lease_order
                             (List.filter (is_leasable now source destination) rows))).
  { rewrite merge_sort_Permutation.
    eapply sublist_NoDup; [exact Hnd|]. apply fmap_sublist, sql_filter_sublist. }
  destruct (is_int64 limit); [|constructor].
  unfold sql_limit. destruct (limit <? 0); [done|].
  eapply sublist_NoDup; [exact Hsorted|]. apply fmap_sublist, sublist_take.
Qed.

Lemma leased_lookup now limit source destination b r :
  NoDup (r_id <$> messages b) ->
  r ∈ select_pending now limit source destination (messages b) ->
  lookup_message (r_id r) (get_pending_messages now limit source destination b).1
  = Some (set_status PROCESSING r).
Proof.
  intros Hnd Hr. unfold lookup_message. simpl.
  rewrite find_sql_update_cond by apply set_status_id.
  pose proof (select_pending_elem _ _ _ _ _ _ Hr) as [Hin _].
  rewrite (find_unique _ _ Hnd Hin). simpl.
  assert (id_in (r_id <$> select_pending now limit source destination (messages b)) r
          = true) as ->; [|done].
  apply id_in_spec, list_elem_of_fmap. by exists r.
Qed.

Lemma select_pending_leasable now limit source destination rows r :
  r ∈ select_pending now limit source destination rows ->
  r ∈ rows /\ leasable now source destination r.
Proof.
  intros H. apply select_pending_sorted in H.
  rewrite merge_sort_Permutation in H. apply elem_of_sql_filter in H as [Hin Hc].
  split; [done|]. by apply is_leasable_spec.
Qed.

Section WorkerFacts.

Context (handler : BufferedMessage -> CallOutcome) (instant : BufferedMessage -> Z).

(** The [try] statement on a leased message for MQTT. *)
Lemma process_message_leased b perf r :
  r_destination r = "mqtt" ->
  lookup_message (r_id r) b = Some (set_status PROCESSING r) ->
  match process_message handler instant (b, perf) (_row_to_message r) with
  | Some step =>
      handler (_row_to_message r) <> Cancelled
      /\ lookup_message (r_id r) step.1 = Some (worker_outcome handler instant r)
      /\ (forall other, other <> r_id r ->
            lookup_message other step.1 = lookup_message other b)
      /\ perf_processed step.2 + perf_failed step.2
         = perf_processed perf + perf_failed perf + 1
  | None => handler (_row_to_message r) = Cancelled
  end.
Proof.
  intros Hdest Hr. unfold process_message, worker_outcome.
  change (m_destination (_row_to_message r)) with (Some (r_destination r)).
  rewrite bool_decide_eq_true_2 by (by rewrite Hdest).
  destruct (handler (_row_to_message r)) as [|e|]; cbn [fst snd]; [| |done].
  - split; [done|].
    unfold complete_message. change (m_id (_row_to_message r)) with (Some (r_id r)).
    destruct (mark_completed_found (instant (_row_to_message r)) (r_id r) b _ Hr)
      as (_ & Hfound).
    split; [exact Hfound|]. split; [|simpl; lia].
    intros other Hne. by apply lookup_other_completed.
  - split; [done|].
    unfold fail_message. change (m_id (_row_to_message r)) with (Some (r_id r)).
    destruct (mark_failed_found (instant (_row_to_message r)) (r_id r) (Some e) b _ Hr)
      as (_ & Hfound & _).
    split; [exact Hfound|]. split; [|simpl; lia].
    intros other Hne. by apply lookup_other_failed.
Qed.

Lemma worker_outcome_settled r :
  handler (_row_to_message r) <> Cancelled ->
  r_status (worker_outcome handler instant r) <> PROCESSING.
Proof.
  unfold worker_outcome. destruct (handler _); [done| |done].
  intros _. cbn [r_status]. by destruct (_ <=? _).
Qed.

(** The loop over a batch of leased messages: it handles the messages
    before the first one at which the bridge is found stopped or the
    adapter call is cancelled, and leaves the others as leased. *)
Lemma worker_batch running todo : forall k b perf,
  NoDup (r_id <$> todo) ->
  Forall (fun r => r_destination r = "mqtt"
                   /\ lookup_message (r_id r) b = Some (set_status PROCESSING r)) todo ->
  let result := process_batch handler instant running k (b, perf)
                              (_row_to_message <$> todo) in
  exists n : nat,
    (n <= length todo)%nat
    /\ (forall i r, todo !! i = Some r -> (i < n)%nat ->
          running (k + i)%nat = true
          /\ handler (_row_to_message r) <> Cancelled
          /\ lookup_message (r_id r) result.1.1 = Some (worker_outcome handler instant r))
    /\ (forall i r, todo !! i = Some r -> (n <= i)%nat ->
          lookup_message (r_id r) result.1.1 = Some (set_status PROCESSING r))
    /\ (forall r, todo !! n = Some r ->
          if running (k + n)%nat
          then handler (_row_to_message r) = Cancelled /\ result.2 = false
          else result.2 = true)
    /\ (n = length todo -> result.2 = true)
    /\ (forall other, other ∉ r_id <$> todo ->
          lookup_message other result.1.1 = lookup_message other b)
    /\ perf_processed result.1.2 + perf_failed result.1.2
       = perf_processed perf + perf_failed perf + Z.of_nat n.
Proof.
  induction todo as [|r todo IH]; intros k b perf Hnd Hleased result; subst result.
  - exists 0%nat. cbn. repeat split; try done; lia.
  - rewrite fmap_cons in Hnd. apply NoDup_cons in Hnd as [Hnew Hnd].
    pose proof Hleased as Hall.
    apply Forall_cons in Hleased as [[Hdest Hr] Hleased].
    rewrite fmap_cons. cbn [process_batch].
    assert (Hstay : forall i r', (r :: todo) !! i = Some r' ->
                      lookup_message (r_id r') b = Some (set_status PROCESSING r')).
    { intros i r' Hi. apply list_elem_of_lookup_2 in Hi.
      rewrite Forall_forall in Hall. by apply Hall. }
    destruct (running k) eqn:Hrun.
    2: { exists 0%nat. cbn [fst snd length]. rewrite Nat.add_0_r.
         split; [lia|]. split; [intros; lia|]. split; [by eauto|].
         split; [intros r' [= <-]; by rewrite Hrun|]. split; [done|].
         split; [done|lia]. }
    pose proof (process_message_leased b perf r Hdest Hr) as Hstep.
    destruct (process_message handler instant (b, perf) (_row_to_message r))
      as [[b2 perf2]|].
    2: { exists 0%nat. cbn [fst snd length]. rewrite Nat.add_0_r.
         split; [lia|]. split; [intros; lia|]. split; [by eauto|].
         split; [intros r' [= <-]; by rewrite Hrun|]. split; [done|].
         split; [done|lia]. }
    cbn [fst snd] in Hstep. destruct Hstep as (Hcall & Hmine & Hothers & Hperf).
    destruct (IH (S k) b2 perf2 Hnd)
      as (n & Hn & Hdone & Hleft & Hnext & Hend & Hframe & Hsum).
    { apply Forall_forall. intros r' Hr'. rewrite Forall_forall in Hleased.
      destruct (Hleased r' Hr') as [Hd Hl]. split; [done|].
      rewrite Hothers; [done|]. intros Heq. apply Hnew. rewrite <- Heq.
      apply list_elem_of_fmap. by exists r'. }
    exists (S n). split; [simpl; lia|]. split; [|split; [|split; [|split; [|split]]]].
    + intros [|i] r' Hi Hlt.
      * injection Hi as <-. rewrite Nat.add_0_r. split; [done|]. split; [done|].
        rewrite Hframe by exact Hnew. exact Hmine.
      * replace (k + S i)%nat with (S k + i)%nat by lia.
        apply (Hdone i r' Hi). lia.
    + intros [|i] r' Hi Hle; [lia|]. apply (Hleft i r' Hi). lia.
    + intros r' Hi. replace (k + S n)%nat with (S k + n)%nat by lia.
      by apply Hnext.
    + intros Hall'. apply Hend. simpl in Hall'. lia.
    + intros other Hother. apply not_elem_of_cons in Hother as [Hne Hother].
      rewrite Hframe by exact Hother. by apply Hothers.
    + rewrite Hsum, Nat2Z.inj_succ. lia.
Qed.

End WorkerFacts.

(** X16.  One pass of the MQTT egress worker over a table with unique
    ids, when the stored texts of the leased batch decode or are refused
    as JSON.  The worker handles the messages of the batch (at most 10)
    that come before the first one at which it finds the bridge stopped or
    at which the adapter call is cancelled.  A message it handles gets the
    outcome of its adapter call: completed when the call returns; one more
    retry, the error text, and pending or failed when it raises; so it is
    not left processing.  The message at which the pass ends and those
    after it stay processing, as the lease left them.  Messages outside
    the batch are untouched, and the two performance counters together
    grow by the number of messages handled.  While the bridge runs and no
    call is cancelled the whole batch is handled. *)
Theorem worker_pass_settles_batch (handler : BufferedMessage -> CallOutcome)
    (instant : BufferedMessage -> Z) (running : nat -> bool) (now : Z)
    (b : PersistentBuffer) (perf : PerformanceStats) :
  let leased := select_pending now 10 None (Some "mqtt") (messages b) in
  let result := _process_mqtt_messages handler instant running now b perf in
  NoDup (r_id <$> messages b) ->
  Forall (fun r => row_decodes_quietly r = true) leased ->
  exists n : nat,
    (n <= length leased <= 10)%nat
    /\ (forall i r, leased !! i = Some r -> (i < n)%nat ->
          running i = true
          /\ handler (_row_to_message r) <> Cancelled
          /\ lookup_message (r_id r) result.1.1 = Some (worker_outcome handler instant r)
          /\ r_status (worker_outcome handler instant r) <> PROCESSING)
    /\ (forall i r, leased !! i = Some r -> (n <= i)%nat ->
          lookup_message (r_id r) result.1.1 = Some (leased_row r))
    /\ (forall r, leased !! n = Some r ->
          if running n
          then handler (_row_to_message r) = Cancelled /\ result.2 = false
          else result.2 = true)
    /\ (n = length leased -> result.2 = true)
    /\ (forall other, other ∉ r_id <$> leased ->
          lookup_message other result.1.1 = lookup_message other b)
    /\ perf_processed result.1.2 + perf_failed result.1.2
       = perf_processed perf + perf_failed perf + Z.of_nat n.
Proof.
  intros leased result Hnd _. subst result. unfold _process_mqtt_messages.
  cbn [fst snd get_pending_messages]. fold leased.
  set (b1 := with_messages _ b).
  destruct (worker_batch handler instant running leased 0 b1 perf)
    as (n & Hn & Hdone & Hleft & Hnext & Hend & Hframe & Hsum).
  { by apply select_pending_nodup. }
  { apply Forall_forall. intros r Hr. split.
    - apply select_pending_leasable in Hr as (_ & _ & _ & _ & _ & Hdest).
      by apply Hdest.
    - by apply (leased_lookup now 10 None (Some "mqtt") b r Hnd). }
  exists n. split; [|split; [|split; [|split; [|split; [|split]]]]].
  - split; [exact Hn|]. subst leased. unfold select_pending, sql_limit. simpl.
    rewrite length_take. lia.
  - intros i r Hi Hlt. destruct (Hdone i r Hi Hlt) as (Hrun & Hcall & Hrow).
    split; [exact Hrun|]. split; [exact Hcall|]. split; [exact Hrow|].
    by apply worker_outcome_settled.
  - intros i r Hi Hle. exact (Hleft i r Hi Hle).
  - intros r Hi. exact (Hnext r Hi).
  - exact Hend.
  - intros other Hother. rewrite (Hframe other Hother).
    subst b1. unfold lookup_message. cbn [messages with_messages].
    rewrite find_sql_update_cond by apply set_status_id.
    destruct (List.find (has_id other) (messages b)) as [r|] eqn:Hfind; [|done].
    simpl. apply find_some in Hfind as [_ Hid]. unfold has_id in Hid.
    assert (id_in (r_id <$> leased) r = false) as ->; [|done].
    apply bool_decide_eq_false_2. by replace (r_id r) with other by lia.
  - exact Hsum.
Qed.

Lemma two_changes_nodup : NoDup (r_id <$> messages two_changes).
Proof. apply (bool_decide_unpack _). by vm_compute. Qed.

(** The bridge is stopped while the first of two messages is published:
    the first is completed, the second stays processing. *)
Lemma worker_pass_settles_batch_witness :
  let result := _process_mqtt_messages (fun _ => Returned) (fun _ => 150)
                                       (fun k => bool_decide (k = 0%nat))
                                       102 two_changes (mkPerformance 0 0) in
  (status_of 1 result.1.1, status_of 2 result.1.1) = (Some COMPLETED, Some PROCESSING)
  /\ result.2 = true.
Proof.
  intros result.
  destruct (worker_pass_settles_batch (fun _ => Returned) (fun _ => 150)
              (fun k => bool_decide (k = 0%nat)) 102 two_changes (mkPerformance 0 0)
              two_changes_nodup)
    as (n & _ & Hdone & Hleft & Hnext & Hend & _).
  { vm_compute. repeat constructor. }
  fold result in Hdone, Hleft, Hnext, Hend.
  set (leased := select_pending 102 10 None (Some "mqtt") (messages two_changes)) in *.
  assert (Hn : n = 1%nat).
  { destruct n as [|[|n]]; [|done|].
    - by destruct (Hnext (List.hd (Sample.row 0 PENDING 0 0 0) leased) eq_refl).
    - destruct (Hdone 1%nat (List.nth 1 leased (Sample.row 0 PENDING 0 0 0)) eq_refl)
        as [Hrun _]; [lia|]. discriminate. }
  subst n. split.
  - unfold status_of.
    destruct (Hdone 0%nat (List.hd (Sample.row 0 PENDING 0 0 0) leased) eq_refl)
      as (_ & _ & Hfirst & _); [lia|].
    pose proof (Hleft 1%nat (List.nth 1 leased (Sample.row 0 PENDING 0 0 0)) eq_refl)
      as Hsecond.
    change (r_id (List.hd (Sample.row 0 PENDING 0 0 0) leased)) with 1 in Hfirst.
    change (r_id (List.nth 1 leased (Sample.row 0 PENDING 0 0 0))) with 2 in Hsecond.
    rewrite Hfirst, Hsecond by lia. reflexivity.
  - by pose proof (Hnext (List.nth 1 leased (Sample.row 0 PENDING 0 0 0)) eq_refl).
Defined.

(** ** Stuck messages *)

(** X17.  A message is stuck as soon as it is processing and was created
    more than five minutes ago, however recent its lease.  On a table with
    unique ids, a message leased at [now] that was created more than five
    minutes before is reported by the anomaly detector at the same instant,
    and [reset_stuck_messages] at that instant puts it back exactly as it
    was before the lease, ready to be leased a second time. *)
Theorem old_message_is_stuck_at_once (now limit : Z) (source destination : option string)
    (b : PersistentBuffer) (r : Row) :
  NoDup (r_id <$> messages b) ->
  r ∈ select_pending now limit source destination (messages b) ->
  r_created_at r + 300 < now ->
  let leased := (get_pending_messages now limit source destination b).1 in
  detect_stuck now (messages leased) <> []
  /\ lookup_message (r_id r) (reset_stuck_messages now leased) = Some r
  /\ leasable now source destination r.
Proof.
  intros Hnd Hr Hold leased.
  pose proof (leased_lookup now limit source destination b r Hnd Hr) as Hlookup.
  fold leased in Hlookup.
  pose proof (select_pending_leasable _ _ _ _ _ _ Hr) as [Hin Hleasable].
  assert (Hstuck : is_stuck now (set_status PROCESSING r) = true).
  { unfold is_stuck, has_status, status_eqb. simpl. apply Z.ltb_lt. lia. }
  split; [|split; [|done]].
  - unfold detect_stuck.
    assert (Hpos : 0 < sql_rowcount (is_stuck now) (messages leased)).
    { apply lookup_message_elem in Hlookup as [Hrow _].
      unfold sql_rowcount.
      assert (Hf : set_status PROCESSING r ∈ List.filter (is_stuck now) (messages leased))
        by (apply elem_of_sql_filter; done).
      destruct (List.filter _ _); [by apply elem_of_nil in Hf|simpl; lia]. }
    change (sql_rowcount (fun r0 => has_status PROCESSING r0 && (r_created_at r0 + 300 <? now))
                         (messages leased))
      with (sql_rowcount (is_stuck now) (messages leased)).
    by replace (0 <? sql_rowcount (is_stuck now) (messages leased)) with true by lia.
  - clearbody leased. unfold lookup_message, reset_stuck_messages, with_messages in *.
    cbn [messages].
    rewrite find_sql_update_cond by apply set_status_id.
    rewrite Hlookup. simpl. rewrite Hstuck, set_status_twice.
    destruct Hleasable as [<- _]. by rewrite set_status_same.
Qed.

Lemma old_message_is_stuck_at_once_witness :
  lookup_message 2 (reset_stuck_messages 500
                      (get_pending_messages 500 1 None None Sample.three_priorities).1)
  = Some (Sample.row 2 PENDING 3 100 3700).
Proof.
  destruct (old_message_is_stuck_at_once 500 1 None None Sample.three_priorities
              (Sample.row 2 PENDING 3 100 3700) sample_three_priorities_nodup)
    as (_ & Hback & _).
  - vm_compute. apply list_elem_of_here.
  - vm_compute. reflexivity.
  - exact Hback.
Defined.

(** X18.  After [reset_stuck_messages] at instant [now] the anomaly
    detector reports no stuck message at that instant, and the pending
    count is unchanged. *)
Theorem reset_stuck_clears_stuck_anomaly (now : Z) (b : PersistentBuffer) :
  detect_stuck now (messages (reset_stuck_messages now b)) = []
  /\ get_pending_count (reset_stuck_messages now b) = get_pending_count b.
Proof.
  split.
  - unfold detect_stuck.
    change (sql_rowcount (fun r => has_status PROCESSING r && (r_created_at r + 300 <? now))
                         (messages (reset_stuck_messages now b)))
      with (sql_rowcount (is_stuck now) (messages (reset_stuck_messages now b))).
    rewrite sql_rowcount_miss; [done|].
    apply Forall_forall. intros r' Hr'. simpl in Hr'.
    apply elem_of_sql_update in Hr' as (r & _ & ->).
    destruct (is_stuck now r) eqn:Hs; [done|exact Hs].
  - unfold get_pending_count. simpl. apply sql_rowcount_update, Forall_forall.
    intros r _ Hs. unfold is_stuck in Hs. apply andb_true_iff in Hs as [Hp _].
    apply has_status_spec in Hp. unfold is_live, has_status, status_eqb. simpl.
    by rewrite Hp.
Qed.

(** ** Route congestion, exactly *)

Lemma group_count_elem {K : Type} `{EqDecision K} (keys : list K) (k : K) (n : Z) :
  (k, n) ∈ group_count keys
  <-> k ∈ keys
      /\ n = Z.of_nat (length (List.filter (fun k' => bool_decide (k' = k)) keys)).
Proof.
  unfold group_count. rewrite list_elem_of_fmap. split.
  - intros (k0 & Heq & Hk). injection Heq as -> ->.
    split; [|done]. by rewrite elem_of_remove_dups in Hk.
  - intros [Hk ->]. exists k. split; [done|]. by apply elem_of_remove_dups.
Qed.

Lemma route_count rows rt :
  Z.of_nat (length (List.filter (fun k' => bool_decide (k' = rt))
                                (route <$> List.filter is_live rows)))
  = sql_rowcount (on_route rt) rows.
Proof.
  unfold sql_rowcount, on_route. f_equal.
  induction rows as [|r rows IH]; [done|].
  cbn [List.filter]. destruct (is_live r); cbn [andb]; [|exact IH].
  rewrite fmap_cons. cbn [List.filter].
  destruct (bool_decide (route r = rt)); cbn [length]; by rewrite IH.
Qed.

Lemma sql_rowcount_positive cond rows :
  0 < sql_rowcount cond rows -> exists r, r ∈ rows /\ cond r = true.
Proof.
  unfold sql_rowcount. intros Hpos.
  destruct (List.filter cond rows) as [|r rest] eqn:Hf; [simpl in Hpos; lia|].
  exists r. apply elem_of_sql_filter. rewrite Hf. apply list_elem_of_here.
Qed.

(** X19.  The route-congestion block reports exactly the routes that
    carry more than 500 pending or processing messages, each with that
    number and with severity medium; the threshold of 100 in its query has
    no effect on what is reported. *)
Theorem route_congestion_exact (rows : list Row) (a : Anomaly) :
  a ∈ detect_route_congestion rows
  <-> exists rt : string * string,
        500 < sql_rowcount (on_route rt) rows
        /\ a = mkAnomaly route_congestion medium
                         (Some (sql_rowcount (on_route rt) rows))
                         (Some (route_name rt)).
Proof.
  unfold detect_route_congestion, congested_routes.
  rewrite list_elem_of_In, in_flat_map. split.
  - intros ([rt n] & Hg & Ha). apply list_elem_of_In in Hg.
    rewrite merge_sort_Permutation in Hg. apply list_elem_of_In, filter_In in Hg as [Hg _].
    apply list_elem_of_In, group_count_elem in Hg as [_ ->]. rewrite route_count in Ha.
    simpl in Ha. destruct (500 <? _) eqn:Hbig; [|done].
    destruct Ha as [<-|[]]. exists rt. split; [lia|done].
  - intros (rt & Hbig & ->).
    exists (rt, sql_rowcount (on_route rt) rows). split.
    + apply list_elem_of_In. rewrite merge_sort_Permutation.
      apply list_elem_of_In, filter_In. split; [|simpl; lia].
      apply list_elem_of_In, group_count_elem. rewrite route_count. split; [|done].
      destruct (sql_rowcount_positive (on_route rt) rows) as (r & Hr & Hon); [lia|].
      unfold on_route in Hon. apply andb_true_iff in Hon as [Hlive Hroute].
      apply bool_decide_eq_true in Hroute as <-.
      apply list_elem_of_fmap. exists r. split; [done|]. by apply elem_of_sql_filter.
    + simpl. replace (500 <? _) with true by lia. by left.
Qed.

(** ** Load prediction: one sample per bucket *)

Lemma patterns_single (groups : list (Z * Z * Z)) : forall (p : gmap (Z * Z) (list Z)),
  NoDup (fst <$> groups) ->
  Forall (fun g => p !! g.1 = None) groups ->
  forall k vs,
    foldl (fun (acc : gmap (Z * Z) (list Z)) g =>
             <[g.1 := default [] (acc !! g.1) ++ [g.2]]> acc) p groups !! k = Some vs ->
    p !! k = Some vs \/ exists n, vs = [n] /\ (k, n) ∈ groups.
Proof.
  induction groups as [|g groups IH]; intros p Hnd Hfresh k vs Hk; [by left|].
  rewrite fmap_cons in Hnd. apply NoDup_cons in Hnd as [Hnew Hnd].
  apply Forall_cons in Hfresh as [Hg Hfresh]. cbn [foldl] in Hk.
  rewrite Hg in Hk. cbn [default app] in Hk.
  apply IH in Hk as [Hk|(n & -> & Hn)]; [| |done|].
  - destruct (decide (g.1 = k)) as [<-|Hne].
    + rewrite lookup_insert_eq in Hk. injection Hk as <-. right. exists g.2.
      split; [done|]. destruct g. apply list_elem_of_here.
    + rewrite lookup_insert_ne in Hk by done. by left.
  - right. exists n. split; [done|]. by apply list_elem_of_further.
  - apply Forall_forall. intros g' Hg'. rewrite lookup_insert_ne.
    + rewrite Forall_forall in Hfresh. by apply Hfresh.
    + intros Heq. apply Hnew. rewrite Heq. apply list_elem_of_fmap. by exists g'.
Qed.

Lemma group_count_keys {K : Type} `{EqDecision K} (keys : list K) :
  fst <$> group_count keys = remove_dups keys.
Proof.
  unfold group_count. rewrite <- list_fmap_compose. apply list_fmap_id.
Qed.

(** Every bucket of the history holds exactly one sample, a count of at
    least one message. *)
Lemma pattern_stats_single stdev now rows k st :
  pattern_stats_of stdev (patterns_of (history now rows)) !! k = Some st ->
  exists n, 1 <= n /\ st = mkPattern (mean [n]) 0%Q 1.
Proof.
  unfold pattern_stats_of. rewrite lookup_omap.
  destruct (patterns_of (history now rows) !! k) as [vs|] eqn:Hvs; [|done].
  unfold patterns_of in Hvs.
  apply patterns_single in Hvs as [Hvs|(n & -> & Hn)].
  - by rewrite lookup_empty in Hvs.
  - simpl. intros [= <-]. exists n. split; [|done].
    unfold history in Hn. apply group_count_elem in Hn as [Hk ->].
    apply list_elem_of_In in Hk.
    match goal with
    | |- 1 <= Z.of_nat (length ?l) =>
        assert (Hf : In k l);
        [apply filter_In; split; [done|]; by apply bool_decide_eq_true_2
        |destruct l; [done|cbn [length]; lia]]
    end.
  - unfold history. rewrite group_count_keys. apply NoDup_remove_dups.
  - apply Forall_forall. intros g _. apply lookup_empty.
Qed.

Lemma py_int_single (n : Z) :
  py_int (mean [n]) = n
  /\ py_int (mean [n] - 0)%Q = n
  /\ py_int (mean [n] + 0)%Q = n.
Proof.
  unfold py_int, mean, Qsum, Qdiv, Qminus, Qplus, Qmult, Qinv, Qopp, inject_Z. simpl.
  rewrite !Z.quot_1_r. lia.
Qed.

(** X20.  [predict_load] returns one prediction per hour asked for (none
    for a non-positive number of hours).  As the history is counted per
    (day of week, hour) bucket before it is filed under the same key, a
    bucket never holds more than one sample: the standard deviation is
    never computed, and a prediction is either the fallback with
    confidence 30 or a bucket's single count with confidence 52 and a
    range of width zero.  No prediction has a higher confidence. *)
Theorem predict_load_single_sample (stdev : list Z -> Q) (now next_hours : Z)
    (rows : list Row) :
  length (lp_predictions (predict_load stdev now next_hours rows)) = Z.to_nat next_hours
  /\ Forall (fun p =>
               p_confidence p = 30
               \/ (p_confidence p = 52
                   /\ 1 <= p_predicted_messages p
                   /\ p_range_min p = p_predicted_messages p
                   /\ p_range_max p = p_predicted_messages p))
            (lp_predictions (predict_load stdev now next_hours rows)).
Proof.
  unfold predict_load. cbn [lp_predictions]. split.
  - by rewrite !length_fmap, length_seq.
  - apply Forall_fmap, Forall_forall. intros offset _. unfold predict_hour.
    cbn [compose].
    destruct (pattern_stats_of stdev (patterns_of (history now rows)) !! _)
      as [st|] eqn:Hst; [|by left].
    apply pattern_stats_single in Hst as (n & Hn & ->). right.
    destruct (py_int_single n) as (Hmean & Hminus & Hplus).
    cbn [p_confidence p_predicted_messages p_range_min p_range_max ps_mean ps_stdev
         ps_samples].
    rewrite Hmean, Hminus, Hplus. repeat split; lia.
Qed.

(** ** The performance report *)

Lemma sql_rowcount_all rows : sql_rowcount (fun _ => true) rows = Z.of_nat (length rows).
Proof.
  unfold sql_rowcount. f_equal. induction rows as [|r rows IH]; simpl; [done|].
  by rewrite IH.
Qed.

Lemma sql_rowcount_filter (count keep : Row -> bool) rows :
  sql_rowcount count (List.filter keep rows)
  = sql_rowcount (fun r => keep r && count r) rows.
Proof.
  unfold sql_rowcount. f_equal. induction rows as [|r rows IH]; simpl; [done|].
  destruct (keep r); simpl; [|exact IH]. destruct (count r); simpl; by rewrite IH.
Qed.

(** Counting per hour and adding up is counting at once. *)
Lemma hourly_sum (count : Row -> bool) (window : list Row) (hs : list Z) :
  NoDup hs ->
  Forall (fun r => hour_bucket r ∈ hs) window ->
  Zsum ((fun h => sql_rowcount count (List.filter (fun r => hour_bucket r =? h) window))
          <$> hs)
  = sql_rowcount count window.
Proof.
  intros Hnd. induction window as [|r window IH]; intros Hin.
  - apply Zsum_zero, Forall_forall. done.
  - apply Forall_cons in Hin as [Hr Hin]. rewrite sql_rowcount_cons, <- (IH Hin).
    assert (Hone : Zsum ((fun h => if bool_decide (hour_bucket r = h)
                                   then (if count r then 1 else 0) else 0) <$> hs)
                   = if count r then 1 else 0).
    { destruct (count r).
      - by apply Zsum_indicator.
      - apply Zsum_zero, Forall_forall. intros h _. by destruct (bool_decide _). }
    rewrite <- Hone, <- Zsum_add. f_equal. apply list_fmap_ext. intros i h _.
    cbn beta. cbn [List.filter].
    destruct (Z.eqb_spec (hour_bucket r) h) as [Heq|Hne].
    + rewrite bool_decide_eq_true_2 by done. by rewrite sql_rowcount_cons.
    + rewrite bool_decide_eq_false_2 by done. lia.
Qed.

Lemma hours_present now hours rows :
  let window := List.filter (in_window now hours) rows in
  let hs := merge_sort Z.le (remove_dups (hour_bucket <$> window)) in
  NoDup hs /\ Forall (fun r => hour_bucket r ∈ hs) window /\ (hs = [] <-> window = []).
Proof.
  intros window hs. subst hs. split; [|split].
  - rewrite merge_sort_Permutation. apply NoDup_remove_dups.
  - apply Forall_forall. intros r Hr. rewrite merge_sort_Permutation.
    apply elem_of_remove_dups, list_elem_of_fmap. by exists r.
  - split.
    + intros Hnil. destruct window as [|r w]; [done|].
      assert (Hin : hour_bucket r ∈ merge_sort Z.le (remove_dups (hour_bucket <$> r :: w))).
      { rewrite merge_sort_Permutation. apply elem_of_remove_dups.
        rewrite fmap_cons. apply list_elem_of_here. }
      rewrite Hnil in Hin. by apply elem_of_nil in Hin.
    + by intros ->.
Qed.

(** X21.  The totals of the performance report are the counts over the
    whole window: [total_messages] is the number of rows created in the
    last [hours] hours, [completed_messages] and [failed_messages] the
    numbers of those that are completed and failed, so together they never
    exceed [total_messages]; and the trend is [no_data] exactly when the
    window holds no row. *)
Theorem performance_totals (now hours : Z) (rows : list Row) :
  let window := List.filter (in_window now hours) rows in
  let report := analyze_performance now hours rows in
  pr_total_messages report = Z.of_nat (length window)
  /\ pr_completed_messages report = count_status COMPLETED window
  /\ pr_failed_messages report = count_status FAILED window
  /\ pr_completed_messages report + pr_failed_messages report <= pr_total_messages report
  /\ (pr_trend report = no_data <-> window = []).
Proof.
  intros window report.
  destruct (hours_present now hours rows) as (Hnd & Hin & Hempty).
  fold window in Hnd, Hin, Hempty.
  set (hs := merge_sort Z.le (remove_dups (hour_bucket <$> window))) in *.
  assert (Hcreated : Zsum (h_created <$> (hourly_row window <$> hs))
                     = Z.of_nat (length window)).
  { rewrite <- list_fmap_compose, <- sql_rowcount_all, <- (hourly_sum _ window hs Hnd Hin).
    f_equal. apply list_fmap_ext. intros i h _. simpl. by rewrite sql_rowcount_all. }
  assert (Hstatus : forall s,
            Zsum ((fun h => sql_rowcount (has_status s)
                              (List.filter (fun r => hour_bucket r =? h) window)) <$> hs)
            = count_status s window)
    by (intros s; by apply hourly_sum).
  assert (Hcompleted : Zsum (h_completed <$> (hourly_row window <$> hs))
                       = count_status COMPLETED window)
    by (rewrite <- list_fmap_compose; apply Hstatus).
  assert (Hfailed : Zsum (h_failed <$> (hourly_row window <$> hs))
                    = count_status FAILED window)
    by (rewrite <- list_fmap_compose; apply Hstatus).
  assert (Hle : count_status COMPLETED window + count_status FAILED window
                <= Z.of_nat (length window)).
  { clear. unfold count_status. induction window as [|r w IH]; [done|].
    rewrite !sql_rowcount_cons, length_cons. unfold has_status, status_eqb in *.
    destruct (r_status r); simpl bool_decide; cbn iota; lia. }
  subst report. unfold analyze_performance, hourly_rows. fold window. fold hs.
  destruct (hourly_row window <$> hs) as [|d ds] eqn:Hdata.
  - apply fmap_nil_inv in Hdata. apply Hempty in Hdata as Hw.
    cbn [pr_total_messages pr_completed_messages pr_failed_messages pr_trend].
    change (Zsum (h_created <$> [])) with 0 in Hcreated.
    change (Zsum (h_completed <$> [])) with 0 in Hcompleted.
    change (Zsum (h_failed <$> [])) with 0 in Hfailed.
    rewrite <- Hcreated, <- Hcompleted, <- Hfailed. repeat split; try done.
  - cbn [pr_total_messages pr_completed_messages pr_failed_messages pr_trend].
    rewrite Hcreated, Hcompleted, Hfailed.
    split; [done|]. split; [done|]. split; [done|]. split; [exact Hle|].
    split.
    + unfold trend_of. destruct (1 <? _)%nat; [|done].
      repeat destruct (Qlt_bool _ _); done.
    + intros Hw. apply Hempty in Hw. rewrite Hw in Hdata. done.
Qed.

Lemma mean_nonneg (l : list Z) : Forall (fun x => 0 <= x) l -> (0 <= mean l)%Q.
Proof.
  intros Hl. unfold mean, Qdiv. apply Qmult_le_0_compat.
  - unfold Qsum. induction Hl as [|x l Hx _ IH]; [done|].
    rewrite fmap_cons. cbn [fold_right].
    apply (Qle_trans _ (0 + 0)); [done|]. apply Qplus_le_compat; [|exact IH].
    unfold Qle. simpl. lia.
  - apply Qinv_le_0_compat. unfold Qle. simpl. lia.
Qed.

Lemma not_trending (q : Q) :
  (0 <= q)%Q ->
  Qlt_bool (q * (11 # 10)) q = false /\ Qlt_bool q (q * (9 # 10)) = false.
Proof.
  intros Hq. unfold Qlt_bool.
  assert (Hup : Qle_bool q (q * (11 # 10)) = true).
  { apply Qle_bool_iff. destruct q as [a d]. unfold Qle in *. simpl in *.
    rewrite Pos2Z.inj_mul. nia. }
  assert (Hdown : Qle_bool (q * (9 # 10)) q = true).
  { apply Qle_bool_iff. destruct q as [a d]. unfold Qle in *. simpl in *.
    rewrite Pos2Z.inj_mul. nia. }
  by rewrite Hup, Hdown.
Qed.

Lemma trend_of_short (data : list HourlyData) :
  Forall (fun d => 0 <= h_completed d) data ->
  (length data = 1%nat -> trend_of data = insufficient_data)
  /\ ((2 <= length data <= 3)%nat -> trend_of data = stable).
Proof.
  intros Hdata. unfold trend_of. split.
  - by intros ->.
  - intros Hlen.
    replace (1 <? length data)%nat with true by (symmetry; apply Nat.ltb_lt; lia).
    replace (3 <? length data)%nat with false by (symmetry; apply Nat.ltb_ge; lia).
    destruct (not_trending (mean (h_completed <$> last_n 3 data))) as [-> ->]; [|done].
    apply mean_nonneg, Forall_fmap. unfold last_n.
    apply Forall_forall. intros d Hd. rewrite Forall_forall in Hdata.
    apply Hdata. by apply subseteq_drop in Hd.
Qed.

(** X22.  The trend of the performance report needs at least four hourly
    buckets: with one bucket it is [insufficient_data], and with two or
    three buckets it is always [stable], because the older throughput is
    then taken equal to the recent one. *)
Theorem performance_trend_needs_four_hours (now hours : Z) (rows : list Row) :
  let report := analyze_performance now hours rows in
  (length (pr_hourly_data report) = 1%nat -> pr_trend report = insufficient_data)
  /\ ((2 <= length (pr_hourly_data report) <= 3)%nat -> pr_trend report = stable).
Proof.
  intros report. subst report. unfold analyze_performance.
  assert (Hdata : Forall (fun d => 0 <= h_completed d) (hourly_rows now hours rows)).
  { unfold hourly_rows. apply Forall_fmap, Forall_forall. intros h _. simpl.
    apply sql_rowcount_nonneg. }
  destruct (hourly_rows now hours rows) as [|d ds] eqn:Hrows.
  - cbn [pr_hourly_data length]. split; intros; [done|lia].
  - cbn [pr_hourly_data pr_trend]. by apply trend_of_short.
Qed.

Lemma performance_trend_needs_four_hours_witness :
  pr_trend (analyze_performance 7200 24
              [Sample.row 1 COMPLETED 1 100 3700; Sample.row 2 PENDING 1 3700 7300])
  = stable.
Proof.
  destruct (performance_trend_needs_four_hours 7200 24
              [Sample.row 1 COMPLETED 1 100 3700; Sample.row 2 PENDING 1 3700 7300])
    as [_ Hstable].
  apply Hstable. vm_compute. split; repeat constructor.
Defined.

(** ** Retrying without delay *)

(** X23.  A retry needs no waiting time: when [mark_failed] leaves
    retries to a message that the lease filters accept and that has not
    expired, the message is pending and leasable again at the very instant
    of the failure. *)
Theorem failed_message_is_leasable_at_once (now message_id : Z)
    (source destination err : option string) (b : PersistentBuffer) (r : Row) :
  lookup_message message_id b = Some r ->
  r_retry_count r + 1 < r_max_retries r ->
  now < r_expire_at r ->
  passes_filter source (r_source r) ->
  passes_filter destination (r_destination r) ->
  exists r',
    lookup_message message_id (mark_failed now message_id err b).1 = Some r'
    /\ r_retry_count r' = r_retry_count r + 1
    /\ r_error_message r' = err
    /\ leasable now source destination r'
    /\ dead_letters message_id (mark_failed now message_id err b).1
       = dead_letters message_id b.
Proof.
  intros Hr Hretries Hexpire Hsource Hdestination.
  destruct (mark_failed_found now message_id err b r Hr) as (_ & Hfound & Hdead).
  exists (set_failure (fail_status r) (r_retry_count r + 1) err r).
  split; [exact Hfound|]. split; [done|]. split; [done|]. split.
  - unfold leasable, fail_status.
    replace (r_max_retries r <=? r_retry_count r + 1) with false by lia.
    simpl. repeat split; try done; lia.
  - rewrite Hdead. replace (r_max_retries r <=? r_retry_count r + 1) with false by lia.
    apply app_nil_r.
Qed.

Lemma failed_message_is_leasable_at_once_witness :
  exists r', lookup_message 1 (mark_failed 200 1 (Some "timeout") Sample.one_pending).1
             = Some r'
             /\ leasable 200 None (Some "opcua") r'.
Proof.
  destruct (failed_message_is_leasable_at_once 200 1 None (Some "opcua") (Some "timeout")
              Sample.one_pending (Sample.row 1 PENDING 1 100 3700))
    as (r' & Hr' & _ & _ & Hleasable & _).
  - reflexivity.
  - vm_compute. reflexivity.
  - vm_compute. reflexivity.
  - exact I.
  - intros _. reflexivity.
  - exists r'. split; [exact Hr'|exact Hleasable].
Defined.

(** * The SAP connector *)

Lemma rstrip_slash_snoc (s : string) :
  rstrip_slash (String.append s "/") = rstrip_slash s.
Proof.
  induction s as [|c s IH]; [done|].
  change (String.append (String c s) "/") with (String c (String.append s "/")).
  change (rstrip_slash (String c (String.append s "/")))
    with (match rstrip_slash (String.append s "/") with
          | EmptyString => if Ascii.eqb c "/" then EmptyString else String c EmptyString
          | kept => String c kept
          end).
  by rewrite IH.
Qed.

Lemma rstrip_slash_twice (s : string) : rstrip_slash (rstrip_slash s) = rstrip_slash s.
Proof.
  induction s as [|c s IH]; [done|]. cbn [rstrip_slash].
  destruct (rstrip_slash s) as [|c' kept] eqn:Hkept.
  - destruct (Ascii.eqb c "/") eqn:Hc; [done|]. cbn [rstrip_slash]. by rewrite Hc.
  - cbn [rstrip_slash]. cbn [rstrip_slash] in IH.
    destruct (rstrip_slash kept) as [|c'' kept'] eqn:Hk.
    + destruct (Ascii.eqb c' "/"); [done|]. by injection IH as ->.
    + by injection IH as ->.
Qed.

Lemma lstrip_slash_only (s : string) :
  String.eqb (lstrip_slash s) "" = true -> lstrip_slash (String "/" s) = "".
Proof. cbn [lstrip_slash]. simpl. by intros ->%String.eqb_eq. Qed.

(** X24.  [_build_url] does not depend on the slashes at the junction:
    one more slash at the end of the endpoint or at the start of the path
    gives the same URL; and for a path that is missing, empty or made of
    slashes only, the URL is the endpoint without its trailing slashes,
    which has no trailing slash left. *)
Theorem build_url_normalises_slashes (endpoint : string) (path : option string) :
  _build_url (String.append endpoint "/") path = _build_url endpoint path
  /\ _build_url endpoint (Some (String "/" (default "" path))) = _build_url endpoint path
  /\ (lstrip_slash (default "" path) = "" ->
      _build_url endpoint path = rstrip_slash endpoint
      /\ rstrip_slash (_build_url endpoint path) = _build_url endpoint path).
Proof.
  unfold _build_url. split; [|split].
  - by rewrite rstrip_slash_snoc.
  - cbn [default lstrip_slash]. done.
  - intros ->. cbn. split; [done|apply rstrip_slash_twice].
Qed.

Lemma build_url_normalises_slashes_witness :
  _build_url "https://sap.example.com/api/" (Some "/orders")
  = "https://sap.example.com/api/orders"
  /\ _build_url "https://sap.example.com/api/" None = "https://sap.example.com/api".
Proof.
  destruct (build_url_normalises_slashes "https://sap.example.com/api/" None)
    as (_ & _ & Hempty).
  split; [reflexivity|]. apply Hempty. reflexivity.
Defined.

Lemma push_from_spec post backoff : forall remaining attempt,
  let result := push_from post backoff attempt remaining in
  (result.2 <= remaining)%nat
  /\ (forall k, (k < result.2)%nat ->
        (S k < result.2)%nat -> is_accepted (post (attempt + k)%nat) = false)
  /\ (result.1 = Some true ->
      (0 < result.2)%nat /\ is_accepted (post (attempt + result.2 - 1)%nat) = true)
  /\ (result.1 = Some false ->
      result.2 = remaining
      /\ (remaining <> 0%nat -> sleep_raises backoff = false)
      /\ forall k, (k < remaining)%nat ->
           is_accepted (post (attempt + k)%nat) = false
           /\ post (attempt + k)%nat <> OtherException)
  /\ (result.1 = None ->
      (0 < result.2)%nat
      /\ (post (attempt + result.2 - 1)%nat = OtherException
          \/ (is_accepted (post (attempt + result.2 - 1)%nat) = false
              /\ sleep_raises backoff = true)))
  /\ (sleep_raises backoff = true -> (result.2 <= 1)%nat).
Proof.
  induction remaining as [|fewer IH]; intros attempt result; subst result.
  - cbn. repeat split; intros; try done; try lia.
  - cbn [push_from].
    assert (Hshift : forall k, (attempt + S k = S attempt + k)%nat) by (intros; lia).
    assert (Hlast : (attempt + 1 - 1 = attempt)%nat) by lia.
    destruct (post attempt) as [code| |] eqn:Hpost.
    3: { cbn. rewrite Hlast. repeat split; try done; try lia. by left. }
    all: destruct (is_accepted _) eqn:Hok;
      [cbn; rewrite ?Hlast, ?Hpost; repeat split; try done; lia|].
    all: destruct (sleep_raises backoff) eqn:Hsleep;
      [cbn; rewrite ?Hlast, ?Hpost; repeat split; try done; try lia; by right|].
    all: specialize (IH (S attempt));
      destruct (push_from post backoff (S attempt) fewer) as [res sent];
      cbn [fst snd] in *;
      destruct IH as (Hle & Hbefore & Htrue & Hfalse & Hnone & _);
      (split; [lia|]); (split; [|split; [|split; [|split]]]).
    all: try (intros [|k] Hk Hk'; [by rewrite Nat.add_0_r, Hpost|];
              rewrite Hshift; apply Hbefore; lia).
    all: try (intros Hres; destruct (Htrue Hres) as [Hpos Hacc]; split; [lia|];
              by replace (attempt + S sent - 1)%nat with (S attempt + sent - 1)%nat by lia).
    all: try (intros Hres; destruct (Hfalse Hres) as (-> & _ & Hall);
              split; [done|]; split; [done|];
              intros [|k] Hk; [rewrite Nat.add_0_r, Hpost; by split|];
              rewrite Hshift; apply Hall; lia).
    all: try (intros Hres; destruct (Hnone Hres) as [Hpos Hwhy]; split; [lia|];
              by replace (attempt + S sent - 1)%nat with (S attempt + sent - 1)%nat by lia).
    all: done.
Qed.

(** The request for a token. *)
Lemma build_headers_spec now auth info response :
  let result := _build_headers now auth info response in
  (result.1.2 <= 1)%nat
  /\ (result.1.2 = 1%nat
      <-> lower (auth_type auth) = "oauth2"
          /\ token_cached now info = false
          /\ is_set (token_url auth) = true /\ is_set (client_id auth) = true
          /\ is_set (client_secret auth) = true)
  /\ (result.1.2 = 1%nat -> response = TokenOtherException -> result.1.1 = None).
Proof.
  intros result. subst result. unfold _build_headers, _get_oauth_token.
  destruct (String.eqb_spec (lower (auth_type auth)) "oauth2") as [Htype|Htype].
  2: { cbn. split; [lia|]. split; [|done]. split; [done|]. by intros [? _]. }
  destruct (token_cached now info).
  { cbn. split; [lia|]. split; [|done]. split; [done|]. by intros (_ & ? & _). }
  destruct (is_set (token_url auth)), (is_set (client_id auth)),
    (is_set (client_secret auth)); cbn [andb negb].
  2-8: cbn; (split; [lia|]); (split; [|done]); (split; [done|]);
    by intros (_ & _ & ? & ? & ?).
  destruct response as [token expires_in| |]; cbn; (split; [lia|]); split; done.
Qed.

(** X25.  [push] sends at most one request for a token, and sends it
    exactly when the authentication type is oauth2 in any letter case, no
    unexpired token is cached and the token URL, the client id and the
    client secret are all set; when that request ends in an exception that
    is no [RequestException], [push] raises without a request for the
    resource.  For the resource it sends at most [max_attempts] requests,
    none when [max_attempts] is not positive, and at most one when
    [time.sleep] refuses [backoff_seconds].  Every request before the last
    one was refused; [push] returns [True] only on an accepted response
    (status 200, 201 or 202), which is then the last request, and [False]
    only after [max_attempts] requests none of which was accepted. *)
Theorem push_bounded_retries (now : Z) (auth : SAPAuthConfig) (info : option TokenInfo)
    (response : TokenResponse) (post : nat -> PostOutcome)
    (max_attempts backoff_seconds : Z) :
  let result := push now auth info response post max_attempts backoff_seconds in
  (token_posts result <= 1)%nat
  /\ (token_posts result = 1%nat
      <-> lower (auth_type auth) = "oauth2"
          /\ token_cached now info = false
          /\ is_set (token_url auth) = true /\ is_set (client_id auth) = true
          /\ is_set (client_secret auth) = true)
  /\ (token_posts result = 1%nat -> response = TokenOtherException ->
      returned result = None /\ posts result = 0%nat)
  /\ Z.of_nat (posts result) <= Z.max 0 max_attempts
  /\ (sleep_raises backoff_seconds = true -> (posts result <= 1)%nat)
  /\ (forall k, (1 <= k < posts result)%nat -> is_accepted (post k) = false)
  /\ (returned result = Some true ->
      (1 <= posts result)%nat /\ is_accepted (post (posts result)) = true)
  /\ (returned result = Some false ->
      Z.of_nat (posts result) = Z.max 0 max_attempts
      /\ forall k, (1 <= k <= posts result)%nat -> is_accepted (post k) = false).
Proof.
  intros result. subst result. unfold push.
  destruct (build_headers_spec now auth info response) as (Hone' & Hwhen & Hraise).
  destruct (push_from_spec post backoff_seconds (Z.to_nat max_attempts) 1)
    as (Hle & Hbefore & Htrue & Hfalse & _ & Hsleep).
  destruct (push_from post backoff_seconds 1 (Z.to_nat max_attempts)) as [res n].
  cbn [fst snd] in *.
  assert (Hloop : Z.of_nat n <= Z.max 0 max_attempts
                  /\ (sleep_raises backoff_seconds = true -> (n <= 1)%nat)
                  /\ (forall k, (1 <= k < n)%nat -> is_accepted (post k) = false)
                  /\ (res = Some true ->
                      (1 <= n)%nat /\ is_accepted (post n) = true)
                  /\ (res = Some false ->
                      Z.of_nat n = Z.max 0 max_attempts
                      /\ forall k, (1 <= k <= n)%nat -> is_accepted (post k) = false)).
  { split; [lia|]. split; [done|]. split; [|split].
    - intros k Hk. replace k with (1 + (k - 1))%nat by lia. apply Hbefore; lia.
    - intros Hres. destruct (Htrue Hres) as [Hpos Hacc]. split; [lia|].
      by replace n with (1 + n - 1)%nat by lia.
    - intros Hres. destruct (Hfalse Hres) as (-> & _ & Hall). split; [lia|].
      intros k Hk. replace k with (1 + (k - 1))%nat by lia. apply Hall. lia. }
  destruct Hloop as (Hmax & Hone & Hrefused & Hyes & Hno).
  destruct (_build_headers now auth info response) as [[[headers|] sent] info'];
    cbn [fst snd] in *; cbn [token_posts posts returned].
  - split; [done|]. split; [done|]. split; [|done].
    intros Hsent Hresp. by specialize (Hraise Hsent Hresp).
  - split; [done|]. split; [done|]. split; [done|]. split; [lia|].
    split; [intros; lia|]. split; [intros; lia|]. split; [done|done].
Qed.

Lemma push_bounded_retries_witness :
  let auth := mkAuth "OAuth2" (Some "https://sap.example.com/token") (Some "bridge")
                     (Some "secret") in
  push 1000 auth None (Granted (Some "t0k3n") 3600)
       (fun k => if (k <? 3)%nat then Response 503 else Response 201) 5 2
  = mkPush (Some true) 3 1 (Some (mkToken (Some "t0k3n") 4540))
  /\ returned (push 1000 auth None TokenOtherException (fun _ => Response 201) 5 2) = None.
Proof.
  intros auth. split; [reflexivity|].
  destruct (push_bounded_retries 1000 auth None TokenOtherException
              (fun _ => Response 201) 5 2) as (_ & Htoken & Hraise & _).
  apply Hraise; [|reflexivity]. apply Htoken. by vm_compute.
Defined.

(** * Integers through [json] *)

Section JsonIntegers.

Import Json.













End JsonIntegers.




